(** * Slug validation of the page form (gerbi/admin/forms.py)

    A shallow embedding of [PageForm.clean_slug], the only routine of the
    form with logic of its own, and the properties the specification
    states about it.

    The method reads three things: the form itself (language, instance,
    submitted data), the project settings, and the database through the
    ORM.  Each becomes an explicit argument.  Raising an exception is
    modelled in the error monad [sum exn]. *)

From Stdlib Require Import List String Ascii Bool Arith PArith ZArith Lia.
From ExtLib Require Import Structures.Monad Structures.MonadExc.
From ExtLib Require Import Data.Monads.EitherMonad.
Import ListNotations.
Import MonadNotation.
Local Open Scope monad_scope.
Local Open Scope string_scope.

Set Implicit Arguments.

(* ===================================================================== *)
(** ** Text *)
(* ===================================================================== *)

(** Strings are ASCII text; a character outside ASCII (code 128 and up)
    is outside what the text functions below describe. *)

Module Text.

Definition code (c : ascii) : nat := nat_of_ascii c.

Definition between (lo hi : nat) (c : ascii) : bool :=
  (lo <=? code c)%nat && (code c <=? hi)%nat.

(** [unicode.isspace] on the ASCII range: TAB, LF, VT, FF, CR, the four
    separators FS, GS, RS, US, and the space. *)
Definition isspace (c : ascii) : bool := between 9 13 c || between 28 32 c.

(** The class [\s] of [re] on a byte string: space, TAB, LF, CR, FF, VT. *)
Definition re_space (c : ascii) : bool := between 9 13 c || between 32 32 c.

(** The class [\w] of [re] without the UNICODE flag: [a-zA-Z0-9_]. *)
Definition re_word (c : ascii) : bool :=
  between 97 122 c || between 65 90 c || between 48 57 c || between 95 95 c.

Definition is_hyphen (c : ascii) : bool := between 45 45 c.

Fixpoint filter (keep : ascii -> bool) (s : string) : string :=
  match s with
  | EmptyString => EmptyString
  | String c r => if keep c then String c (filter keep r) else filter keep r
  end.

Fixpoint map (f : ascii -> ascii) (s : string) : string :=
  match s with
  | EmptyString => EmptyString
  | String c r => String (f c) (map f r)
  end.

Fixpoint lstrip (sp : ascii -> bool) (s : string) : string :=
  match s with
  | EmptyString => EmptyString
  | String c r => if sp c then lstrip sp r else s
  end.

Fixpoint rstrip (sp : ascii -> bool) (s : string) : string :=
  match s with
  | EmptyString => EmptyString
  | String c r =>
      match rstrip sp r with
      | EmptyString => if sp c then EmptyString else String c EmptyString
      | r' => String c r'
      end
  end.

(** [s.strip()] for the whitespace class [sp]. *)
Definition strip_with (sp : ascii -> bool) (s : string) : string :=
  rstrip sp (lstrip sp s).

(** [unicode.strip()], as [clean_slug] applies it to the submitted slug. *)
Definition strip (s : string) : string := strip_with isspace s.

(** [s.lower()] on ASCII. *)
Definition lower_char (c : ascii) : ascii :=
  if between 65 90 c then ascii_of_nat (code c + 32) else c.

Definition lower (s : string) : string := map lower_char s.

(** [re.sub('[-\s]+', '-', s)]: every maximal run of hyphens and
    whitespace becomes one hyphen.  [in_run] tells that the previous
    character belonged to such a run. *)
Fixpoint hyphenate_runs (in_run : bool) (s : string) : string :=
  match s with
  | EmptyString => EmptyString
  | String c r =>
      if is_hyphen c || re_space c
      then (if in_run then hyphenate_runs true r
            else String "-"%char (hyphenate_runs true r))
      else String c (hyphenate_runs false r)
  end.

End Text.

(** [slugify] is imported from [django.template.defaultfilters]; it is a
    library function, not code of this repository.  The definition follows
    that filter on ASCII text:
<<
    value = unicodedata.normalize('NFKD', value).encode('ascii', 'ignore')
    value = unicode(re.sub('[^\w\s-]', '', value).strip().lower())
    return mark_safe(re.sub('[-\s]+', '-', value))
>>
    On ASCII text the first line changes nothing; a character outside
    ASCII is dropped here, which is what [encode('ascii', 'ignore')] does
    with a character that has no ASCII decomposition. *)
Definition django_slugify (value : string) : string :=
  let value := Text.filter (Text.between 0 127) value in
  let value :=
    Text.filter (fun c => Text.re_word c || Text.re_space c || Text.is_hyphen c)
                value in
  let value := Text.lower (Text.strip_with Text.re_space value) in
  Text.hyphenate_runs false value.

(* ===================================================================== *)
(** ** Settings, exceptions, database rows *)
(* ===================================================================== *)

(** The settings [clean_slug] reads from [gerbi.settings]. *)
Record Settings := {
  GERBI_DEFAULT_LANGUAGE : string;
  GERBI_UNIQUE_SLUG_REQUIRED : bool;
  GERBI_USE_SITE_ID : bool;
  GERBI_HIDE_SITES : bool;
  SITE_ID : Z
}.

(** The error messages declared at the top of the module. *)
Inductive message :=
| default_slug_required
| another_page_error
| sibling_position_error
| child_error
| sibling_error
| sibling_root_error.

(** What [clean_slug] can raise: [forms.ValidationError] with one of the
    messages, or [Page.DoesNotExist] out of [Page.objects.get]. *)
Inductive exn :=
| ValidationError (m : message)
| DoesNotExist.

(** A stored page is identified by its primary key.  Primary keys are the
    values of an auto-incremented column, hence positive: [self.instance.id]
    is either [None] (a page not saved yet) or such a key, and its truth
    value tells the two apart. *)
Definition Page := positive.

(** A row of [Content]: a typed, language-scoped attribute of a page. *)
Module Content.
Record t := {
  page : Page;
  language : string;
  type : string;
  body : string
}.
End Content.

(** The database as [clean_slug] sees it through the ORM.  The models live
    in [gerbi.models], outside this module (the tree queries come from the
    tree library behind [Page]), so what its queries answer is taken as
    given:
    - [contents]: the rows of [Content.objects];
    - [exists_page pk]: whether [Page.objects.get(pk=pk)] finds a page;
    - [get_siblings p], [get_children p], [root]: the pages returned by
      [p.get_siblings()], [p.get_children()] and [Page.objects.root()];
    - [sites p]: the ids of [p.sites];
    - [slug p]: the value of [p.slug()]. *)
Record Database := {
  contents : list Content.t;
  exists_page : positive -> bool;
  get_siblings : Page -> list Page;
  get_children : Page -> list Page;
  root : list Page;
  sites : Page -> list Z;
  slug : Page -> string
}.

(** The state of the form that [clean_slug] reads:
    - [language]: [self.language];
    - [instance]: [self.instance.id];
    - [cleaned_slug]: [self.cleaned_data['slug']];
    - [target]: [self.data.get('target', None)], a primary key; [None]
      stands for a missing or empty value (both are false in a condition);
    - [position]: [self.data.get('position', None)];
    - [data_sites]: [self.data.getlist('sites')], already converted by
      [int]. *)
Record PageForm := {
  language : string;
  instance : option positive;
  cleaned_slug : string;
  target : option positive;
  position : option string;
  data_sites : list Z
}.

(** Truth value of a string-or-None in a condition: [None] and the empty
    string are false. *)
Definition truthy (o : option string) : bool :=
  match o with
  | Some s => negb (s =? "")
  | None => false
  end.

(** [x in xs] on a list of strings. *)
Definition contains (xs : list string) (x : string) : bool :=
  existsb (String.eqb x) xs.

(* ===================================================================== *)
(** ** clean_slug *)
(* ===================================================================== *)

Definition Exc := sum exn.

Section CleanSlug.

(** The slug normaliser called by [clean_slug]; [django_slugify] is the
    one the module imports. *)
Variable slugify : string -> string.

Variable settings : Settings.
Variable db : Database.
Variable self : PageForm.

(** Line 123: [slug = slugify(self.cleaned_data['slug'].strip())]. *)
Definition normalized : string := slugify (Text.strip (cleaned_slug self)).

(** [Content.objects.filter(page=self.instance, type="slug")]: a page
    that is not saved yet owns no row. *)
Definition own_row (c : Content.t) : bool :=
  match instance self with
  | Some i => (Content.page c =? i)%positive
  | None => false
  end.

Definition own_slug_rows : list Content.t :=
  filter (fun c => own_row c && (Content.type c =? "slug")) (contents db).

(** Lines 125-130. *)
Definition check_default_slug : Exc unit :=
  if language self =? GERBI_DEFAULT_LANGUAGE settings then
    if (String.length normalized =? 0)%nat
    then raise (ValidationError default_slug_required)
    else ret tt
  else
    if (List.length own_slug_rows =? 0)%nat
    then raise (ValidationError default_slug_required)
    else ret tt.

(** [....filter(body=slug, type="slug")] on a queryset of contents. *)
Definition with_slug_body (rows : list Content.t) : list Content.t :=
  filter (fun c => (Content.body c =? normalized) && (Content.type c =? "slug"))
         rows.

(** [Content.objects.exclude(page=self.instance)]. *)
Definition exclude_own (rows : list Content.t) : list Content.t :=
  filter (fun c => negb (own_row c)) rows.

(** Lines 135-141. *)
Definition check_unique : Exc unit :=
  if GERBI_UNIQUE_SLUG_REQUIRED settings then
    match instance self with
    | Some _ =>
        if negb (List.length (with_slug_body (exclude_own (contents db))) =? 0)%nat
        then raise (ValidationError another_page_error)
        else ret tt
    | None =>
        if negb (List.length (with_slug_body (contents db)) =? 0)%nat
        then raise (ValidationError another_page_error)
        else ret tt
    end
  else ret tt.

(** Lines 143-152: the local function [intersects_sites]. *)
Definition site_ids : list Z :=
  if GERBI_HIDE_SITES settings then [SITE_ID settings] else data_sites self.

Definition intersects_sites (sibling : Page) : bool :=
  if GERBI_USE_SITE_ID settings then
    (0 <? List.length (filter (fun id => existsb (Z.eqb id) site_ids)
                         (sites db sibling)))%nat
  else true.

(** [[sibling.slug() for sibling in pages if intersects_sites(sibling)]]. *)
Definition slugs_of (pages : list Page) : list string :=
  map (slug db) (filter intersects_sites pages).

(** [Page.objects.get(pk=target)]. *)
Definition objects_get (pk : positive) : Exc Page :=
  if exists_page db pk then ret pk else raise DoesNotExist.

(** Lines 169-180: no target and position were submitted together. *)
Definition check_current_level : Exc unit :=
  match instance self with
  | Some id =>
      if contains
           (slugs_of (filter (fun p => negb (p =? id)%positive)
                             (get_siblings db id)))
           normalized
      then raise (ValidationError sibling_error)
      else ret tt
  | None =>
      if contains (slugs_of (root db)) normalized
      then raise (ValidationError sibling_root_error)
      else ret tt
  end.

(** Lines 156-168: [target] and [position] were submitted together. *)
Definition check_target (pk : positive) (position : string) : Exc unit :=
  target <- objects_get pk ;;
  (if contains ["right"; "left"] position then
     let slugs := (slugs_of (get_siblings db target) ++ [slug db target])%list in
     if contains slugs normalized
     then raise (ValidationError sibling_position_error)
     else ret tt
   else ret tt) ;;
  (if position =? "first-child" then
     if contains (slugs_of (get_children db target)) normalized
     then raise (ValidationError child_error)
     else ret tt
   else ret tt).

(** Lines 154-180.  [target and position] holds when both values are
    present and not empty. *)
Definition check_position : Exc unit :=
  if negb (GERBI_UNIQUE_SLUG_REQUIRED settings) then
    match target self, position self with
    | Some pk, Some pos =>
        if truthy (Some pos) then check_target pk pos else check_current_level
    | _, _ => check_current_level
    end
  else ret tt.

(** [PageForm.clean_slug]: the checks in the order of the source, then
    [return slug]. *)
Definition clean_slug : Exc string :=
  check_default_slug ;;
  check_unique ;;
  check_position ;;
  ret normalized.

(** *** The conditions the checks test, as propositions *)

(** The default slug is missing: an empty slug in the default language,
    or another language for a page without any slug content. *)
Definition slug_missing : Prop :=
  (language self = GERBI_DEFAULT_LANGUAGE settings /\ normalized = "") \/
  (language self <> GERBI_DEFAULT_LANGUAGE settings /\
   forall c, In c (contents db) -> Content.type c = "slug" ->
             instance self <> Some (Content.page c)).

(** Some row of type "slug" of another page holds the normalized slug. *)
Definition slug_taken : Prop :=
  exists c, In c (contents db) /\ Content.type c = "slug" /\
            Content.body c = normalized /\
            instance self <> Some (Content.page c).

(** Some page of [pages] that passes the site filter has the normalized
    slug. *)
Definition collides (pages : list Page) : Prop :=
  exists q, In q pages /\ intersects_sites q = true /\ slug db q = normalized.

End CleanSlug.

(** The two ways [clean_slug] ends that the specification speaks of. *)
Definition raises {A} (r : Exc A) (m : message) : Prop :=
  r = inl (ValidationError m).

Definition returns {A} (r : Exc A) (v : A) : Prop := r = inr v.

(* ===================================================================== *)
(** ** The page tree and its contents as tables *)
(* ===================================================================== *)

(** A row of the page table: primary key, parent in the tree ([None] at
    the root level) and the sites the page is attached to. *)
Record PageRow := {
  id : positive;
  parent : option positive;
  on_sites : list Z
}.

Record Tables := {
  page_rows : list PageRow;
  content_rows : list Content.t
}.

Definition same_parent (a b : option positive) : bool :=
  match a, b with
  | Some x, Some y => (x =? y)%positive
  | None, None => true
  | _, _ => false
  end.

Definition find_page (tb : Tables) (pk : positive) : option PageRow :=
  find (fun r => (id r =? pk)%positive) (page_rows tb).

(** Modelled from the spec: the queries of [gerbi.models.Page] and of its
    manager, which are defined outside [gerbi/admin/forms.py].  The
    specification describes a page as a node of an ordered tree with
    children and siblings, a sibling as a page sharing the same parent, a
    root-level page as one without parent, the site association as a
    many-to-many relation between pages and sites, and the slug as the
    body of the page's content of type "slug".  [get_siblings] leaves the page itself
    out (the specification adds the target to its siblings, and says of
    the edited page's siblings that it is excluded).  The slug of a page
    is looked up in the default language first, then in any language; a
    page without slug content has the empty slug. *)
Definition tree_siblings (tb : Tables) (pk : Page) : list Page :=
  match find_page tb pk with
  | Some row =>
      map id (filter (fun r => same_parent (parent r) (parent row)
                               && negb (id r =? pk)%positive)
                     (page_rows tb))
  | None => []
  end.

(** Modelled from the spec: [Page.get_children()], the pages whose parent
    is the page. *)
Definition tree_children (tb : Tables) (pk : Page) : list Page :=
  map id (filter (fun r => same_parent (parent r) (Some pk)) (page_rows tb)).

(** Modelled from the spec: [Page.objects.root()], the root-level pages. *)
Definition tree_root (tb : Tables) : list Page :=
  map id (filter (fun r => same_parent (parent r) None) (page_rows tb)).

(** Modelled from the spec: the ids of [Page.sites], the sites the page is
    associated with. *)
Definition page_sites (tb : Tables) (pk : Page) : list Z :=
  match find_page tb pk with
  | Some row => on_sites row
  | None => []
  end.

(** Modelled from the spec: [Page.slug()], the body of the page's content
    of type "slug", in the default language when there is one. *)
Definition page_slug (default_language : string) (tb : Tables) (pk : Page)
  : string :=
  let rows := filter (fun c => (Content.page c =? pk)%positive
                               && (Content.type c =? "slug"))
                     (content_rows tb) in
  match filter (fun c => Content.language c =? default_language) rows, rows with
  | c :: _, _ => Content.body c
  | [], c :: _ => Content.body c
  | [], [] => ""
  end.

(** Modelled from the spec: the answers of the ORM on a database that holds
    the tables. *)
Definition database_of (settings : Settings) (tb : Tables) : Database := {|
  contents := content_rows tb;
  exists_page := fun pk => match find_page tb pk with Some _ => true | None => false end;
  get_siblings := tree_siblings tb;
  get_children := tree_children tb;
  root := tree_root tb;
  sites := page_sites tb;
  slug := page_slug (GERBI_DEFAULT_LANGUAGE settings) tb
|}.

(** *** A small site used in the examples

    Five pages: [home] (1), [about] (2) and [contact] (5) at the root
    level, [news] (3) and [team] (4) below [home].  [team] and [contact]
    belong to site 2, the others to site 1.  [about] also has a French
    slug. *)
Definition slug_row (pk : positive) (lang body : string) : Content.t :=
  {| Content.page := pk; Content.language := lang;
     Content.type := "slug"; Content.body := body |}.

Definition title_row (pk : positive) (lang body : string) : Content.t :=
  {| Content.page := pk; Content.language := lang;
     Content.type := "title"; Content.body := body |}.

Definition site_tables : Tables := {|
  page_rows := [
    {| id := 1; parent := None; on_sites := [1%Z] |};
    {| id := 2; parent := None; on_sites := [1%Z] |};
    {| id := 3; parent := Some 1%positive; on_sites := [1%Z] |};
    {| id := 4; parent := Some 1%positive; on_sites := [2%Z] |};
    {| id := 5; parent := None; on_sites := [2%Z] |} ];
  content_rows := [
    slug_row 1 "en" "home"; title_row 1 "en" "Home";
    slug_row 2 "en" "about"; slug_row 2 "fr" "a-propos";
    slug_row 3 "en" "news";
    slug_row 4 "en" "team";
    slug_row 5 "en" "contact"; title_row 5 "en" "contact" ]
|}.

(** Settings: English is the default language; [position_mode] checks
    slugs by tree position on every site, [site_mode] by tree position
    within the sites of the form, [unique_mode] across all pages. *)
Definition position_mode : Settings := {|
  GERBI_DEFAULT_LANGUAGE := "en";
  GERBI_UNIQUE_SLUG_REQUIRED := false;
  GERBI_USE_SITE_ID := false;
  GERBI_HIDE_SITES := false;
  SITE_ID := 1
|}.

Definition site_mode : Settings := {|
  GERBI_DEFAULT_LANGUAGE := "en";
  GERBI_UNIQUE_SLUG_REQUIRED := false;
  GERBI_USE_SITE_ID := true;
  GERBI_HIDE_SITES := false;
  SITE_ID := 1
|}.


(** A submitted form on site 1. *)
Definition submit (lang : string) (inst : option positive) (raw : string)
    (tgt : option positive) (pos : option string) : PageForm := {|
  language := lang;
  instance := inst;
  cleaned_slug := raw;
  target := tgt;
  position := pos;
  data_sites := [1%Z]
|}.

(** [clean_slug] as the module runs it: with Django's [slugify], on the
    database made of the tables. *)
Definition run (settings : Settings) (tb : Tables) (form : PageForm)
  : Exc string :=
  clean_slug django_slugify settings (database_of settings tb) form.

(* ===================================================================== *)
(** ** The specification's notions *)
(* ===================================================================== *)

(** [target and position] of line 155. *)
Definition placed (self : PageForm) : bool :=
  match target self with
  | Some _ => truthy (position self)
  | None => false
  end.

(** The pages next to which the validated page stands at the position the
    form names (specification, 4.1 step 5): beside the target for
    left/right (the target and its siblings), below the target for
    first-child (its children); without target and position, the other
    siblings of the edited page, or the root-level pages for a new page. *)
Inductive sibling_at_position (db : Database) (self : PageForm) : Page -> Prop :=
| beside_target t pos q :
    target self = Some t -> position self = Some pos ->
    pos = "left" \/ pos = "right" ->
    q = t \/ In q (get_siblings db t) ->
    sibling_at_position db self q
| below_target t q :
    target self = Some t -> position self = Some "first-child" ->
    In q (get_children db t) ->
    sibling_at_position db self q
| beside_itself i q :
    placed self = false -> instance self = Some i ->
    In q (get_siblings db i) -> q <> i ->
    sibling_at_position db self q
| at_root q :
    placed self = false -> instance self = None ->
    In q (root db) ->
    sibling_at_position db self q.



(** The characters of a slug: lowercase letters, digits, the underscore
    and the hyphen. *)
Definition slug_char (c : ascii) : bool :=
  Text.between 97 122 c || Text.between 48 57 c || Text.between 95 95 c
  || Text.is_hyphen c.

Fixpoint all_chars (p : ascii -> bool) (s : string) : bool :=
  match s with
  | EmptyString => true
  | String c r => p c && all_chars p r
  end.

(* ===================================================================== *)
(** ** The constructor of the form *)
(* ===================================================================== *)

(** [self.fields] is the ordered dictionary Django's forms keep their
    fields in: keys are unique, a new key goes to the end, an existing key
    keeps its place. *)
Module SortedDict.

Section Ops.

Variable V : Type.

Definition t := list (string * V).

Definition keys (d : t) : list string := map fst d.

(** [d.get(k)]. *)
Fixpoint get (k : string) (d : t) : option V :=
  match d with
  | [] => None
  | (k', v) :: r => if k' =? k then Some v else get k r
  end.

(** [d[k] = v]. *)
Fixpoint set (k : string) (v : V) (d : t) : t :=
  match d with
  | [] => [(k, v)]
  | (k', v') :: r => if k' =? k then (k, v) :: r else (k', v') :: set k v r
  end.

(** What [del d[k]] leaves of [d]. *)
Fixpoint remove (k : string) (d : t) : t :=
  match d with
  | [] => []
  | (k', v') :: r => if k' =? k then r else (k', v') :: remove k r
  end.

End Ops.

End SortedDict.

Module Init.

(** The one exception the constructor raises by itself. *)
Inductive exn := KeyError (key : string).

Definition Exc := sum exn.

(** What a field is initialised with: a text, or a list of ids. *)
Inductive value :=
| Str (s : string)
| Ids (l : list Z).

(** The widget of a field, as far as the constructor is concerned: the
    language chooser it builds, or whatever the field was declared
    with. *)
Inductive widget :=
| LanguageChoiceWidget (page : option Page) (language : string)
| Declared (name : string).

(** The attributes of a form field that the constructor reads or writes;
    [None] for [initial] is Python's [None]. *)
Record Field := {
  initial : option value;
  choices : list (string * string);
  field_widget : widget
}.

Definition set_initial (x : option value) (f : Field) : Field :=
  {| initial := x; choices := choices f; field_widget := field_widget f |}.

Definition set_choices (c : list (string * string)) (f : Field) : Field :=
  {| initial := initial f; choices := c; field_widget := field_widget f |}.

Definition set_widget (w : widget) (f : Field) : Field :=
  {| initial := initial f; choices := choices f; field_widget := w |}.

Definition Fields := SortedDict.t Field.

(** A placeholder of a template, with the two methods the constructor
    calls. *)
Record Placeholder := {
  name : string;
  get_content : Page -> string -> string -> option value;
  get_field : option Page -> string -> option value -> Field
}.

(** The keyword arguments the constructor looks at; [None] is a key that
    was not passed.  [instance] is a stored page. *)
Record Kwargs := {
  kw_language : option string;
  kw_template : option string;
  kw_instance : option Page
}.

(** The form once constructed: [self.language] and [self.fields]. *)
Record Form := {
  language : string;
  fields : Fields
}.

(** [kwargs.pop(key)]. *)
Definition pop {A} (key : string) (x : option A) : Exc A :=
  match x with
  | Some v => ret v
  | None => raise (KeyError key)
  end.

(** [del fields[key]]. *)
Definition delitem (key : string) (fields : Fields) : Exc Fields :=
  match SortedDict.get key fields with
  | Some _ => ret (SortedDict.remove key fields)
  | None => raise (KeyError key)
  end.

(** [fields[key].attr = x], [change] being the assignment to the
    attribute. *)
Definition setattr (key : string) (change : Field -> Field) (fields : Fields)
  : Exc Fields :=
  match SortedDict.get key fields with
  | Some f => ret (SortedDict.set key (change f) fields)
  | None => raise (KeyError key)
  end.

Section Constructor.

Variable settings : Settings.

(** [settings.GERBI_DEFAULT_TEMPLATE] and [settings.get_page_templates()]. *)
Variable GERBI_DEFAULT_TEMPLATE : string.
Variable get_page_templates : list (string * string).

(** [gerbi.utils.get_placeholders]. *)
Variable get_placeholders : string -> list Placeholder.

(** [page.slug(language=language, fallback=False)] and
    [page.title(language=language, fallback=False)]. *)
Variable slug_in : Page -> string -> option value.
Variable title_in : Page -> string -> option value.

(** Lines 111-118, one turn of the loop. *)
Definition add_placeholder (page : option Page) (language : string)
    (fields : Fields) (placeholder : Placeholder) : Fields :=
  let name := name placeholder in
  let initial :=
    match page with
    | Some p => get_content placeholder p language name
    | None => None
    end in
  SortedDict.set name (get_field placeholder page language initial) fields.

(** [PageForm.__init__] (lines 78-118).  [base_fields] is [self.fields] as
    the constructor of [forms.ModelForm] leaves it: the declared fields
    and those of the model. *)
Definition __init__ (kwargs : Kwargs) (base_fields : Fields) : Exc Form :=
  language <- pop "language" (kw_language kwargs) ;;
  template <- pop "template" (kw_template kwargs) ;;
  let page := kw_instance kwargs in
  let fields := base_fields in
  fields <- delitem "author" fields ;;
  fields <- delitem "last_modification_date" fields ;;
  fields <- setattr "language" (set_initial (Some (Str language))) fields ;;
  fields <- setattr "language"
              (set_widget (LanguageChoiceWidget page language)) fields ;;
  fields <- (if GERBI_USE_SITE_ID settings
             then setattr "sites"
                    (set_initial (Some (Ids [SITE_ID settings]))) fields
             else ret fields) ;;
  fields <- match page with
            | Some p =>
                let initial_slug := slug_in p language in
                let initial_title := title_in p language in
                fields <- setattr "slug" (set_initial initial_slug) fields ;;
                setattr "title" (set_initial initial_title) fields
            | None => ret fields
            end ;;
  let page_templates := get_page_templates in
  fields <- (if (0 <? List.length page_templates)%nat then
               let template_choices :=
                 (GERBI_DEFAULT_TEMPLATE, "Default template") :: page_templates in
               fields <- setattr "template" (set_choices template_choices)
                           fields ;;
               setattr "template" (set_initial (Some (Str template))) fields
             else ret fields) ;;
  let fields :=
    fold_left (add_placeholder page language) (get_placeholders template)
              fields in
  ret {| language := language; fields := fields |}.

(** [fields[key].attr = x] on a dictionary that has the key. *)
Definition modify (key : string) (change : Field -> Field) (fields : Fields)
  : Fields :=
  match SortedDict.get key fields with
  | Some f => SortedDict.set key (change f) fields
  | None => fields
  end.

(** The fields as lines 87-109 leave them when no key is missing, before
    the placeholders are added. *)
Definition declared_fields (language template : string) (page : option Page)
    (base_fields : Fields) : Fields :=
  let fields :=
    SortedDict.remove "last_modification_date"
      (SortedDict.remove "author" base_fields) in
  let fields :=
    modify "language" (set_widget (LanguageChoiceWidget page language))
      (modify "language" (set_initial (Some (Str language))) fields) in
  let fields :=
    if GERBI_USE_SITE_ID settings
    then modify "sites" (set_initial (Some (Ids [SITE_ID settings]))) fields
    else fields in
  let fields :=
    match page with
    | Some p =>
        modify "title" (set_initial (title_in p language))
          (modify "slug" (set_initial (slug_in p language)) fields)
    | None => fields
    end in
  if (0 <? List.length get_page_templates)%nat then
    modify "template" (set_initial (Some (Str template)))
      (modify "template"
         (set_choices ((GERBI_DEFAULT_TEMPLATE, "Default template")
                       :: get_page_templates))
         fields)
  else fields.

(** The keys the constructor requires of [base_fields], in the order it
    asks for them. *)
Definition required_keys (page : option Page) : list string :=
  (["author"; "last_modification_date"; "language"]
   ++ (if GERBI_USE_SITE_ID settings then ["sites"] else [])
   ++ (match page with Some _ => ["slug"; "title"] | None => [] end)
   ++ (if (0 <? List.length get_page_templates)%nat then ["template"] else []))%list.

(** The first of the required keys that [base_fields] lacks. *)
Definition first_missing (page : option Page) (base_fields : Fields)
  : option string :=
  find (fun k => negb (existsb (String.eqb k) (SortedDict.keys base_fields)))
       (required_keys page).

End Constructor.

End Init.

(** *** Forms, databases and settings that differ in one place *)

Definition set_position (pos : option string) (self : PageForm) : PageForm := {|
  language := language self;
  instance := instance self;
  cleaned_slug := cleaned_slug self;
  target := target self;
  position := pos;
  data_sites := data_sites self
|}.

Definition set_target (tgt : option positive) (self : PageForm) : PageForm := {|
  language := language self;
  instance := instance self;
  cleaned_slug := cleaned_slug self;
  target := tgt;
  position := position self;
  data_sites := data_sites self
|}.

Definition set_cleaned_slug (raw : string) (self : PageForm) : PageForm := {|
  language := language self;
  instance := instance self;
  cleaned_slug := raw;
  target := target self;
  position := position self;
  data_sites := data_sites self
|}.

Definition set_data_sites (ids : list Z) (self : PageForm) : PageForm := {|
  language := language self;
  instance := instance self;
  cleaned_slug := cleaned_slug self;
  target := target self;
  position := position self;
  data_sites := ids
|}.

Definition set_sites (page_sites : Page -> list Z) (db : Database)
  : Database := {|
  contents := contents db;
  exists_page := exists_page db;
  get_siblings := get_siblings db;
  get_children := get_children db;
  root := root db;
  sites := page_sites;
  slug := slug db
|}.

Definition set_site_options (hide : bool) (site_id : Z) (settings : Settings)
  : Settings := {|
  GERBI_DEFAULT_LANGUAGE := GERBI_DEFAULT_LANGUAGE settings;
  GERBI_UNIQUE_SLUG_REQUIRED := GERBI_UNIQUE_SLUG_REQUIRED settings;
  GERBI_USE_SITE_ID := GERBI_USE_SITE_ID settings;
  GERBI_HIDE_SITES := hide;
  SITE_ID := site_id
|}.

(** A text in which separators (hyphens and whitespace) are single
    hyphens; [in_run] tells that a separator came just before. *)
Fixpoint separators_single (in_run : bool) (s : string) : bool :=
  match s with
  | EmptyString => true
  | String c r =>
      if Text.is_hyphen c || Text.re_space c
      then negb in_run && Ascii.eqb c "-"%char && separators_single true r
      else separators_single false r
  end.

(** *** A form class and a template used in the examples

    The fields [PageForm] declares (lines 30-73), followed by three fields
    of the model; a template with three placeholders, two of them of the
    same name. *)
Definition declared_field (widget : string) : Init.Field := {|
  Init.initial := None;
  Init.choices := [];
  Init.field_widget := Init.Declared widget
|}.

Definition page_form_fields : Init.Fields := [
  ("title", declared_field "Textarea");
  ("slug", declared_field "TextInput");
  ("language", declared_field "LanguageChoiceWidget");
  ("template", declared_field "Select");
  ("delegate_to", declared_field "Select");
  ("freeze_date", declared_field "DateTimeInput");
  ("redirect_to", declared_field "TextInput");
  ("target", declared_field "HiddenInput");
  ("position", declared_field "HiddenInput");
  ("author", declared_field "Select");
  ("last_modification_date", declared_field "DateTimeInput");
  ("sites", declared_field "SelectMultiple") ].

Definition text_placeholder (name stored : string) : Init.Placeholder := {|
  Init.name := name;
  Init.get_content := fun page language name => Some (Init.Str stored);
  Init.get_field := fun page language initial =>
    {| Init.initial := initial; Init.choices := [];
       Init.field_widget := Init.Declared "Textarea" |}
|}.

Definition article_placeholders (template : string) : list Init.Placeholder :=
  [ text_placeholder "body" "first body";
    text_placeholder "summary" "a summary";
    text_placeholder "body" "second body" ].

Definition article_templates : list (string * string) :=
  [("article.html", "Article"); ("news.html", "News")].

Definition stored_slug (p : Page) (language : string) : option Init.value :=
  Some (Init.Str (page_slug language site_tables p)).

Definition stored_title (p : Page) (language : string) : option Init.value :=
  None.

(** The constructor on the example site; [edit_about] edits page 2 in
    English with the article template. *)
Definition construct (kwargs : Init.Kwargs) : Init.Exc Init.Form :=
  Init.__init__ site_mode "default.html" article_templates
                article_placeholders stored_slug stored_title
                kwargs page_form_fields.

Definition edit_about : Init.Kwargs := {|
  Init.kw_language := Some "en";
  Init.kw_template := Some "article.html";
  Init.kw_instance := Some 2%positive
|}.

Definition about_form : Init.Form :=
  Eval vm_compute in
    match construct edit_about with
    | inr form => form
    | inl _ => {| Init.language := ""; Init.fields := [] |}
    end.

(** Closes a goal that is settled by running the definitions. *)
Ltac by_computation := vm_compute; first [reflexivity | discriminate].

(* ===================================================================== *)
(** ** Properties *)
(* ===================================================================== *)

Lemma contains_In (xs : list string) (x : string) :
  contains xs x = true <-> In x xs.
Proof.
  unfold contains. rewrite existsb_exists. split.
  - intros [y [Hy Heq]]. apply String.eqb_eq in Heq. now subst.
  - intros H. exists x. split; [assumption | apply String.eqb_refl].
Qed.

Lemma contains_false (xs : list string) (x : string) :
  contains xs x = false <-> ~ In x xs.
Proof.
  rewrite <- contains_In. destruct (contains xs x); split; intros; congruence.
Qed.

Lemma no_length_nil {A} (l : list A) :
  (List.length l =? 0)%nat = true <-> l = [].
Proof.
  rewrite Nat.eqb_eq. destruct l; simpl; split; intros; congruence.
Qed.

Lemma filter_nil_iff {A} (f : A -> bool) (l : list A) :
  filter f l = [] <-> forall x, In x l -> f x = false.
Proof.
  induction l as [|a l IH]; simpl.
  - split; [intros _ x [] | reflexivity].
  - destruct (f a) eqn:Ha; split.
    + discriminate.
    + intros H. specialize (H a (or_introl eq_refl)). congruence.
    + intros H x [<- | Hx]; [assumption | now apply IH].
    + intros H. apply IH. intros x Hx. apply H. now right.
Qed.

Lemma filter_not_nil_iff {A} (f : A -> bool) (l : list A) :
  filter f l <> [] <-> exists x, In x l /\ f x = true.
Proof.
  split.
  - intros H. destruct (filter f l) as [|x r] eqn:E; [congruence |].
    exists x. apply filter_In. rewrite E. now left.
  - intros [x Hx] E. apply filter_In in Hx. rewrite E in Hx. destruct Hx.
Qed.

Section Properties.

Variable slugify : string -> string.
Variable settings : Settings.
Variable db : Database.
Variable self : PageForm.

Local Abbreviation slug' := (normalized slugify self).
Local Abbreviation run' := (clean_slug slugify settings db self).
Local Abbreviation passes p := (intersects_sites settings db self p = true).
Local Abbreviation missing := (slug_missing slugify settings db self).
Local Abbreviation taken := (slug_taken slugify db self).
Local Abbreviation clash := (collides slugify settings db self).

(** *** The three checks, one at a time *)

Lemma clean_slug_steps :
  run' =
  match check_default_slug slugify settings db self with
  | inl e => inl e
  | inr _ =>
      match check_unique slugify settings db self with
      | inl e => inl e
      | inr _ =>
          match check_position slugify settings db self with
          | inl e => inl e
          | inr _ => inr slug'
          end
      end
  end.
Proof. reflexivity. Qed.

(** A row of the edited page, as a proposition. *)
Lemma own_row_true (c : Content.t) :
  own_row self c = true <-> instance self = Some (Content.page c).
Proof.
  unfold own_row. destruct (instance self) as [i|].
  - rewrite Pos.eqb_eq. split; [intros -> | intros [= ->]]; reflexivity.
  - split; discriminate.
Qed.

Lemma own_row_false (c : Content.t) :
  own_row self c = false <-> instance self <> Some (Content.page c).
Proof.
  rewrite <- own_row_true. destruct (own_row self c); split; congruence.
Qed.

Lemma check_default_slug_cases :
  (check_default_slug slugify settings db self
     = inl (ValidationError default_slug_required) /\ missing) \/
  (check_default_slug slugify settings db self = inr tt /\ ~ missing).
Proof.
  unfold check_default_slug, slug_missing.
  destruct (String.eqb_spec (language self) (GERBI_DEFAULT_LANGUAGE settings))
    as [Hl | Hl].
  - destruct (String.length slug' =? 0)%nat eqn:E.
    + left. split; [reflexivity |]. left. split; [assumption |].
      apply Nat.eqb_eq in E. destruct slug'; [reflexivity | discriminate].
    + right. split; [reflexivity |]. intros [[_ H] | [H _]]; [| congruence].
      rewrite H in E. discriminate.
  - destruct (List.length (own_slug_rows db self) =? 0)%nat eqn:E.
    + left. split; [reflexivity |]. right. split; [assumption |].
      apply no_length_nil in E. unfold own_slug_rows in E.
      intros c Hc Ht. apply own_row_false.
      pose proof (proj1 (filter_nil_iff _ _) E c Hc) as Hf. simpl in Hf.
      apply andb_false_iff in Hf. destruct Hf as [Hf | Hf]; [assumption |].
      apply String.eqb_neq in Hf. congruence.
    + right. split; [reflexivity |]. intros [[H _] | [_ H]]; [congruence |].
      assert (own_slug_rows db self = []) as Hn.
      { apply filter_nil_iff. intros c Hc. apply andb_false_iff.
        destruct (String.eqb_spec (Content.type c) "slug") as [Ht | Ht];
          [left | now right].
        apply own_row_false. now apply H. }
      rewrite Hn in E. discriminate.
Qed.

Lemma with_slug_body_In (rows : list Content.t) (c : Content.t) :
  In c (with_slug_body slugify self rows) <->
  In c rows /\ Content.body c = slug' /\ Content.type c = "slug".
Proof.
  unfold with_slug_body. rewrite filter_In, andb_true_iff.
  rewrite !String.eqb_eq. reflexivity.
Qed.

Lemma check_unique_cases :
  GERBI_UNIQUE_SLUG_REQUIRED settings = true ->
  (check_unique slugify settings db self
     = inl (ValidationError another_page_error) /\ taken) \/
  (check_unique slugify settings db self = inr tt /\ ~ taken).
Proof.
  intros Hu. unfold check_unique, slug_taken. rewrite Hu.
  destruct (instance self) as [i|] eqn:Hi.
  - destruct (with_slug_body slugify self (exclude_own self (contents db)))
      as [|c r] eqn:E; simpl.
    + right. split; [reflexivity |]. intros [c [Hc [Ht [Hb Hn]]]].
      assert (In c (with_slug_body slugify self (exclude_own self (contents db))))
        as Hin.
      { apply with_slug_body_In. repeat split; try assumption.
        unfold exclude_own. apply filter_In. split; [assumption |].
        apply negb_true_iff, own_row_false. now rewrite Hi. }
      rewrite E in Hin. destruct Hin.
    + left. split; [reflexivity |]. exists c.
      assert (In c (with_slug_body slugify self (exclude_own self (contents db))))
        as Hin by (rewrite E; now left).
      apply with_slug_body_In in Hin. destruct Hin as [Hin [Hb Ht]].
      unfold exclude_own in Hin. apply filter_In in Hin.
      destruct Hin as [Hin Hown].
      apply negb_true_iff, own_row_false in Hown. rewrite Hi in Hown.
      repeat split; assumption.
  - destruct (with_slug_body slugify self (contents db)) as [|c r] eqn:E; simpl.
    + right. split; [reflexivity |]. intros [c [Hc [Ht [Hb Hn]]]].
      assert (In c (with_slug_body slugify self (contents db))) as Hin
        by (apply with_slug_body_In; repeat split; assumption).
      rewrite E in Hin. destruct Hin.
    + left. split; [reflexivity |]. exists c.
      assert (In c (with_slug_body slugify self (contents db))) as Hin
        by (rewrite E; now left).
      apply with_slug_body_In in Hin. destruct Hin as [Hin [Hb Ht]].
      repeat split; try assumption. discriminate.
Qed.

Lemma check_unique_off :
  GERBI_UNIQUE_SLUG_REQUIRED settings = false ->
  check_unique slugify settings db self = inr tt.
Proof. intros Hu. unfold check_unique. now rewrite Hu. Qed.

Lemma check_position_unique :
  GERBI_UNIQUE_SLUG_REQUIRED settings = true ->
  check_position slugify settings db self = inr tt.
Proof. intros Hu. unfold check_position. now rewrite Hu. Qed.

Lemma slugs_of_collides (pages : list Page) :
  In slug' (slugs_of settings db self pages) <-> clash pages.
Proof.
  unfold slugs_of, collides. rewrite in_map_iff. split.
  - intros [q [Hs Hq]]. apply filter_In in Hq. destruct Hq. now exists q.
  - intros [q [Hq [Hp Hs]]]. exists q. split; [assumption |].
    apply filter_In. now split.
Qed.

Lemma in_others (i q : Page) (pages : list Page) :
  In q (filter (fun p => negb (p =? i)%positive) pages) <-> In q pages /\ q <> i.
Proof.
  rewrite filter_In, negb_true_iff, Pos.eqb_neq. reflexivity.
Qed.

(** *** The position check *)

Lemma check_target_beside (t : positive) (pos : string) :
  exists_page db t = true -> pos = "left" \/ pos = "right" ->
  (check_target slugify settings db self t pos
     = inl (ValidationError sibling_position_error)
   /\ (slug db t = slug' \/ clash (get_siblings db t))) \/
  (check_target slugify settings db self t pos = inr tt
   /\ ~ (slug db t = slug' \/ clash (get_siblings db t))).
Proof.
  intros Ht Hpos. unfold check_target, objects_get. rewrite Ht.
  assert (contains ["right"; "left"] pos = true) as ->
    by (destruct Hpos; subst; reflexivity).
  assert ((pos =? "first-child") = false) as Hfc
    by (destruct Hpos; subst; reflexivity).
  cbn. rewrite Hfc.
  destruct (contains _ slug') eqn:E.
  - left. split; [reflexivity |]. apply contains_In, in_app_or in E.
    destruct E as [E | [E | []]].
    + right. now apply slugs_of_collides.
    + now left.
  - right. split; [reflexivity |]. apply contains_false in E.
    intros [H | H]; apply E, in_or_app.
    + right. now left.
    + left. now apply slugs_of_collides.
Qed.

Lemma check_target_below (t : positive) :
  exists_page db t = true ->
  (check_target slugify settings db self t "first-child"
     = inl (ValidationError child_error)
   /\ clash (get_children db t)) \/
  (check_target slugify settings db self t "first-child" = inr tt
   /\ ~ clash (get_children db t)).
Proof.
  intros Ht. unfold check_target, objects_get. rewrite Ht. cbn.
  destruct (contains _ slug') eqn:E.
  - left. split; [reflexivity |]. now apply slugs_of_collides, contains_In.
  - right. split; [reflexivity |]. apply contains_false in E.
    intros H. now apply E, slugs_of_collides.
Qed.

Lemma check_target_elsewhere (t : positive) (pos : string) :
  exists_page db t = true ->
  pos <> "left" -> pos <> "right" -> pos <> "first-child" ->
  check_target slugify settings db self t pos = inr tt.
Proof.
  intros Ht Hl Hr Hf. unfold check_target, objects_get. rewrite Ht.
  apply String.eqb_neq in Hl, Hr, Hf. unfold contains. cbn.
  now rewrite Hl, Hr, Hf.
Qed.

Lemma check_target_missing (t : positive) (pos : string) :
  exists_page db t = false ->
  check_target slugify settings db self t pos = inl DoesNotExist.
Proof. intros Ht. unfold check_target, objects_get. now rewrite Ht. Qed.

Lemma check_current_level_edited (i : positive) :
  instance self = Some i ->
  let others := filter (fun p => negb (p =? i)%positive) (get_siblings db i) in
  (check_current_level slugify settings db self
     = inl (ValidationError sibling_error) /\ clash others) \/
  (check_current_level slugify settings db self = inr tt /\ ~ clash others).
Proof.
  intros Hi others. unfold check_current_level. rewrite Hi. fold others.
  destruct (contains _ slug') eqn:E.
  - left. split; [reflexivity |]. now apply slugs_of_collides, contains_In.
  - right. split; [reflexivity |]. apply contains_false in E.
    intros H. now apply E, slugs_of_collides.
Qed.

Lemma check_current_level_new :
  instance self = None ->
  (check_current_level slugify settings db self
     = inl (ValidationError sibling_root_error) /\ clash (root db)) \/
  (check_current_level slugify settings db self = inr tt /\ ~ clash (root db)).
Proof.
  intros Hi. unfold check_current_level. rewrite Hi.
  destruct (contains _ slug') eqn:E.
  - left. split; [reflexivity |]. now apply slugs_of_collides, contains_In.
  - right. split; [reflexivity |]. apply contains_false in E.
    intros H. now apply E, slugs_of_collides.
Qed.

Lemma check_position_placed (t : positive) (pos : string) :
  GERBI_UNIQUE_SLUG_REQUIRED settings = false ->
  target self = Some t -> position self = Some pos -> pos <> "" ->
  check_position slugify settings db self
  = check_target slugify settings db self t pos.
Proof.
  intros Hu Ht Hp Hne. unfold check_position. rewrite Hu, Ht, Hp. cbn.
  apply String.eqb_neq in Hne. now rewrite Hne.
Qed.

Lemma check_position_unplaced :
  GERBI_UNIQUE_SLUG_REQUIRED settings = false -> placed self = false ->
  check_position slugify settings db self
  = check_current_level slugify settings db self.
Proof.
  intros Hu Hp. unfold check_position, placed in *. rewrite Hu. cbn.
  destruct (target self); [| reflexivity].
  destruct (position self) as [pos|]; [| reflexivity].
  cbn in Hp. now rewrite Hp.
Qed.

(** *** Which check raises which message *)

Lemma check_unique_not_default :
  check_unique slugify settings db self
  <> inl (ValidationError default_slug_required).
Proof.
  unfold check_unique.
  destruct (GERBI_UNIQUE_SLUG_REQUIRED settings); [| discriminate].
  destruct (instance self);
    match goal with |- (if ?b then _ else _) <> _ => destruct b end;
    discriminate.
Qed.

Lemma check_position_not_default :
  check_position slugify settings db self
  <> inl (ValidationError default_slug_required).
Proof.
  unfold check_position, check_target, check_current_level, objects_get.
  cbn.
  repeat match goal with
         | |- context [match ?x with _ => _ end] =>
             match type of x with
             | bool => destruct x
             | option _ => destruct x
             end; cbn
         end; discriminate.
Qed.

Lemma raises_default_iff :
  raises run' default_slug_required <-> missing.
Proof.
  unfold raises. rewrite clean_slug_steps.
  destruct check_default_slug_cases as [[-> H] | [-> H]].
  - split; [intros _; assumption | reflexivity].
  - split; [| intros H'; contradiction].
    pose proof check_unique_not_default as Hu.
    pose proof check_position_not_default as Hp.
    destruct (check_unique slugify settings db self) as [e|[]];
      [intros E; congruence |].
    destruct (check_position slugify settings db self) as [e|[]];
      intros E; congruence.
Qed.

Lemma default_check_passed :
  ~ raises run' default_slug_required ->
  check_default_slug slugify settings db self = inr tt.
Proof.
  intros H. destruct check_default_slug_cases as [[_ Hm] | [-> _]];
    [| reflexivity].
  exfalso. now apply H, raises_default_iff.
Qed.

(* ===================================================================== *)
(** ** The properties of the specification *)
(* ===================================================================== *)

(** Once the default-slug check is passed, what is left of [clean_slug] is
    the check of the mode in force. *)
Lemma run_position_mode :
  GERBI_UNIQUE_SLUG_REQUIRED settings = false ->
  ~ raises run' default_slug_required ->
  run' = match check_position slugify settings db self with
         | inl e => inl e
         | inr _ => inr slug'
         end.
Proof.
  intros Hu Hd. rewrite clean_slug_steps.
  now rewrite (default_check_passed Hd), (check_unique_off Hu).
Qed.


Lemma returns_inv (s : string) :
  returns run' s ->
  s = slug' /\
  check_default_slug slugify settings db self = inr tt /\
  check_unique slugify settings db self = inr tt /\
  check_position slugify settings db self = inr tt.
Proof.
  unfold returns. rewrite clean_slug_steps.
  destruct (check_default_slug slugify settings db self) as [|[]];
    [discriminate |].
  destruct (check_unique slugify settings db self) as [|[]]; [discriminate |].
  destruct (check_position slugify settings db self) as [|[]];
    [discriminate |].
  intros [= <-]. repeat split.
Qed.


(** C7.  clean_slug raises the default-slug-required error if and only if
    either the language of the form is the default language and the
    normalized slug is empty, or the language is another one and the page
    being validated has no content row of type "slug" in any language.  In
    the default language a normalized slug that is not empty never raises
    this error. *)
Theorem default_slug_required_exactly :
  (raises run' default_slug_required <->
     (language self = GERBI_DEFAULT_LANGUAGE settings /\ slug' = "") \/
     (language self <> GERBI_DEFAULT_LANGUAGE settings /\
      forall c, In c (contents db) -> Content.type c = "slug" ->
                instance self <> Some (Content.page c)))
  /\ (language self = GERBI_DEFAULT_LANGUAGE settings -> slug' <> "" ->
      ~ raises run' default_slug_required).
Proof.
  split; [apply raises_default_iff |].
  intros Hl Hne H. apply raises_default_iff in H.
  destruct H as [[_ H] | [H _]]; contradiction.
Qed.







(** C1, amended.  Once validation passes with unique mode disabled, the
    normalized slug differs from the slug of every page that stands at the
    validated page's position (beside the target for left and right,
    below it for first-child, beside the edited page or at the root level
    without target and position) and passes the site-intersection filter,
    which every page does when site scoping is disabled.  Once validation
    passes with unique mode enabled, the normalized slug differs from the
    body of every content row of type "slug" of any other page. *)
Theorem accepted_slug_is_free (s : string) :
  returns run' s ->
  (GERBI_UNIQUE_SLUG_REQUIRED settings = false ->
   forall q, sibling_at_position db self q -> passes q -> slug db q <> s)
  /\ (GERBI_UNIQUE_SLUG_REQUIRED settings = true ->
      forall c, In c (contents db) -> Content.type c = "slug" ->
                instance self <> Some (Content.page c) ->
                Content.body c <> s).
Proof.
  intros Hret. apply returns_inv in Hret.
  destruct Hret as [-> [_ [Hun Hpos]]]. split.
  - intros Hu q Hq Hpass Heq.
    destruct Hq as [t pos q Ht Hp Hlr Hq | t q Ht Hp Hq
                   | i q Hpl Hi Hq Hne | q Hpl Hi Hq].
    + rewrite (check_position_placed Hu Ht Hp) in Hpos
        by (destruct Hlr; subst; discriminate).
      destruct (exists_page db t) eqn:He;
        [| rewrite (check_target_missing t pos He) in Hpos; discriminate].
      destruct (check_target_beside t He Hlr) as [[E _] | [_ H]];
        [congruence |].
      apply H. destruct Hq as [-> | Hq]; [now left |].
      right. now exists q.
    + rewrite (check_position_placed Hu Ht Hp) in Hpos by discriminate.
      destruct (exists_page db t) eqn:He;
        [| rewrite (check_target_missing t _ He) in Hpos; discriminate].
      destruct (check_target_below t He) as [[E _] | [_ H]]; [congruence |].
      apply H. now exists q.
    + rewrite (check_position_unplaced Hu Hpl) in Hpos.
      destruct (check_current_level_edited Hi) as [[E _] | [_ H]];
        [congruence |].
      apply H. exists q. split; [now apply in_others | now split].
    + rewrite (check_position_unplaced Hu Hpl) in Hpos.
      destruct (check_current_level_new Hi) as [[E _] | [_ H]];
        [congruence |].
      apply H. now exists q.
  - intros Hu c Hc Ht Hother Hb.
    destruct (check_unique_cases Hu) as [[E _] | [_ H]]; [congruence |].
    apply H. now exists c.
Qed.

(** What holds of the site filter: with unique mode disabled and the
    default-slug check passed, no validation error is raised as long as no
    page at the position that passes the filter has the normalized slug,
    and the target of a left or right placement, which is compared without
    the filter, does not have it either. *)
Lemma filtered_candidates_never_block :
  GERBI_UNIQUE_SLUG_REQUIRED settings = false ->
  ~ raises run' default_slug_required ->
  (forall q, sibling_at_position db self q -> passes q ->
             slug db q <> slug') ->
  (forall t pos, target self = Some t -> position self = Some pos ->
                 pos = "left" \/ pos = "right" -> slug db t <> slug') ->
  forall m, ~ raises run' m.
Proof.
  intros Hu Hd Hsib Htgt m. unfold raises.
  rewrite (run_position_mode Hu Hd).
  destruct (placed self) eqn:Hpl.
  - unfold placed in Hpl.
    destruct (target self) as [t|] eqn:Ht; [| discriminate].
    destruct (position self) as [pos|] eqn:Hp; [| discriminate].
    cbn in Hpl. apply negb_true_iff, String.eqb_neq in Hpl.
    rewrite (check_position_placed Hu Ht Hp Hpl).
    destruct (exists_page db t) eqn:He;
      [| rewrite (check_target_missing t pos He); discriminate].
    destruct (string_dec pos "left") as [Hl | Hl];
      [| destruct (string_dec pos "right") as [Hr | Hr]].
    1, 2: assert (pos = "left" \/ pos = "right") as Hlr by tauto;
      destruct (check_target_beside t He Hlr) as [[_ H] | [-> _]];
      [exfalso | discriminate];
      destruct H as [H | [q [Hq [Hpass Hs]]]];
      [ now apply (Htgt t pos)
      | apply (Hsib q); [| assumption ..];
        eapply beside_target; eauto ].
    destruct (string_dec pos "first-child") as [Hf | Hf].
    + subst pos.
      destruct (check_target_below t He) as [[_ H] | [-> _]];
        [exfalso | discriminate].
      destruct H as [q [Hq [Hpass Hs]]].
      apply (Hsib q); [| assumption ..].
      eapply below_target; eauto.
    + rewrite (check_target_elsewhere t He Hl Hr Hf). discriminate.
  - rewrite (check_position_unplaced Hu Hpl).
    destruct (instance self) as [i|] eqn:Hi.
    + destruct (check_current_level_edited Hi) as [[_ H] | [-> _]];
        [exfalso | discriminate].
      destruct H as [q [Hq [Hpass Hs]]]. apply in_others in Hq.
      destruct Hq as [Hq Hne].
      apply (Hsib q); [| assumption ..].
      eapply beside_itself; eauto.
    + destruct (check_current_level_new Hi) as [[_ H] | [-> _]];
        [exfalso | discriminate].
      destruct H as [q [Hq [Hpass Hs]]].
      apply (Hsib q); [| assumption ..].
      now apply at_root.
Qed.

(** Whatever the normaliser, the value returned on success is the
    normaliser applied to the trimmed submitted slug. *)
Lemma returned_slug_is_slugified (s : string) :
  returns run' s ->
  s = slugify (Text.strip (cleaned_slug self)).
Proof.
  intros Hret. apply returns_inv in Hret. now destruct Hret as [-> _].
Qed.

End Properties.



(** *** What Django's slugify returns *)

Lemma all_chars_filter (p : ascii -> bool) (s : string) :
  all_chars p (Text.filter p s) = true.
Proof.
  induction s as [|c r IH]; simpl; [reflexivity |].
  destruct (p c) eqn:E; simpl; [now rewrite E | assumption].
Qed.

Lemma all_chars_lstrip (p sp : ascii -> bool) (s : string) :
  all_chars p s = true -> all_chars p (Text.lstrip sp s) = true.
Proof.
  induction s as [|c r IH]; simpl; [reflexivity |].
  intros H. destruct (sp c); [| exact H].
  apply andb_true_iff in H. now apply IH.
Qed.

Lemma all_chars_rstrip (p sp : ascii -> bool) (s : string) :
  all_chars p s = true -> all_chars p (Text.rstrip sp s) = true.
Proof.
  induction s as [|c r IH]; simpl; [reflexivity |].
  intros H. apply andb_true_iff in H. destruct H as [Hc Hr].
  specialize (IH Hr). destruct (Text.rstrip sp r) as [|c' r'].
  - destruct (sp c); simpl; [reflexivity | now rewrite Hc].
  - change (all_chars p (String c (String c' r')) = true).
    simpl in *. now rewrite Hc.
Qed.

Lemma all_chars_map (p q : ascii -> bool) (f : ascii -> ascii) (s : string) :
  (forall c, p c = true -> q (f c) = true) ->
  all_chars p s = true -> all_chars q (Text.map f s) = true.
Proof.
  intros Hf. induction s as [|c r IH]; simpl; [reflexivity |].
  intros H. apply andb_true_iff in H. destruct H as [Hc Hr].
  now rewrite (Hf c Hc), IH.
Qed.

Lemma all_chars_hyphenate (p : ascii -> bool) (in_run : bool) (s : string) :
  (forall c, p c = true -> Text.is_hyphen c || Text.re_space c = false ->
             slug_char c = true) ->
  all_chars p s = true ->
  all_chars slug_char (Text.hyphenate_runs in_run s) = true.
Proof.
  intros Hp. revert in_run. induction s as [|c r IH]; simpl; [reflexivity |].
  intros in_run H. apply andb_true_iff in H. destruct H as [Hc Hr].
  destruct (Text.is_hyphen c || Text.re_space c) eqn:E.
  - destruct in_run; simpl; now apply IH.
  - simpl. now rewrite (Hp c Hc E), IH.
Qed.

(** A character that slugify keeps is, once lowercased, a slug character
    or whitespace. *)
Lemma lower_kept_char (c : ascii) :
  Text.re_word c || Text.re_space c || Text.is_hyphen c = true ->
  slug_char (Text.lower_char c) || Text.re_space (Text.lower_char c) = true.
Proof.
  destruct c as [b0 b1 b2 b3 b4 b5 b6 b7].
  destruct b0, b1, b2, b3, b4, b5, b6, b7; vm_compute;
    intros H; first [reflexivity | discriminate H].
Qed.

Lemma django_slugify_chars (value : string) :
  all_chars slug_char (django_slugify value) = true.
Proof.
  unfold django_slugify.
  apply all_chars_hyphenate
    with (p := fun c => slug_char c || Text.re_space c).
  - intros c Hc Hsep. apply orb_false_iff in Hsep. destruct Hsep as [_ Hs].
    rewrite Hs, orb_false_r in Hc. exact Hc.
  - unfold Text.lower.
    apply all_chars_map
      with (p := fun c => Text.re_word c || Text.re_space c || Text.is_hyphen c).
    + exact lower_kept_char.
    + unfold Text.strip_with.
      apply all_chars_rstrip, all_chars_lstrip, all_chars_filter.
Qed.


(** C2.  With site scoping enabled and unique mode disabled, a new page is
    submitted with the slug "contact", to the left of the page [contact]
    (5), for site 1.  The target belongs to site 2 only, so it does not
    pass the site-intersection filter, and none of its siblings has that
    slug; yet its slug is added to the comparison set without the filter,
    and clean_slug raises the sibling-at-position error. *)
Theorem target_on_other_site_blocks :
  let form := submit "en" None "contact" (Some 5%positive) (Some "left") in
  let db := database_of site_mode site_tables in
  GERBI_USE_SITE_ID site_mode = true
  /\ GERBI_UNIQUE_SLUG_REQUIRED site_mode = false
  /\ intersects_sites site_mode db form 5%positive = false
  /\ get_siblings db 5%positive = [1%positive; 2%positive]
  /\ slugs_of site_mode db form (get_siblings db 5%positive) = ["home"; "about"]
  /\ raises (run site_mode site_tables form) sibling_position_error.
Proof. repeat split. Qed.

(* ===================================================================== *)
(** ** The properties on the example site *)
(* ===================================================================== *)







(** A new page "Fresh Page" at the root level passes, and its slug is not
    the slug of [home]. *)
Lemma accepted_slug_on_site :
  let form := submit "en" None " Fresh Page " None None in
  let db := database_of position_mode site_tables in
  returns (run position_mode site_tables form) "fresh-page"
  /\ (GERBI_UNIQUE_SLUG_REQUIRED position_mode = false ->
      forall q, sibling_at_position db form q ->
                intersects_sites position_mode db form q = true ->
                slug db q <> "fresh-page")
  /\ (GERBI_UNIQUE_SLUG_REQUIRED position_mode = true ->
      forall c, In c (contents db) -> Content.type c = "slug" ->
                instance form <> Some (Content.page c) ->
                Content.body c <> "fresh-page").
Proof.
  split; [reflexivity |].
  apply (@accepted_slug_is_free django_slugify position_mode
           (database_of position_mode site_tables)
           (submit "en" None " Fresh Page " None None) "fresh-page").
  reflexivity.
Defined.


(* ===================================================================== *)
(** ** Where the specification says more than the code does *)
(* ===================================================================== *)

(** C1 as stated fails.  With site scoping enabled, a new page "contact"
    is submitted at the root level for site 1.  The root page [contact]
    (5) stands at the same position and has that very slug, but it belongs
    to site 2 only: validation passes. *)
Lemma sibling_on_other_site_shares_slug :
  let form := submit "en" None "contact" None None in
  let db := database_of site_mode site_tables in
  sibling_at_position db form 5%positive
  /\ returns (run site_mode site_tables form) "contact"
  /\ slug db 5%positive = "contact".
Proof.
  split; [| split; reflexivity].
  apply at_root; [reflexivity | reflexivity |].
  vm_compute. tauto.
Qed.







(* ===================================================================== *)
(** ** The ordered dictionary *)
(* ===================================================================== *)

Section SortedDictFacts.

Variable V : Type.
Implicit Types (d : SortedDict.t V) (k : string) (v : V).

Lemma get_None_iff k d :
  SortedDict.get k d = None <-> ~ In k (SortedDict.keys d).
Proof.
  induction d as [|[k' v'] r IH]; simpl; [tauto |].
  destruct (String.eqb_spec k' k) as [-> | Hne].
  - split; [discriminate | intros H; exfalso; apply H; now left].
  - rewrite IH. tauto.
Qed.

Lemma get_Some_iff k d :
  (exists v, SortedDict.get k d = Some v) <-> In k (SortedDict.keys d).
Proof.
  destruct (SortedDict.get k d) as [v|] eqn:E.
  - split; [intros _ | intros _; now exists v].
    destruct (in_dec string_dec k (SortedDict.keys d)) as [H | H];
      [assumption |].
    apply get_None_iff in H. congruence.
  - apply get_None_iff in E. split; [intros [v Hv]; discriminate | tauto].
Qed.

Lemma get_set_eq k v d : SortedDict.get k (SortedDict.set k v d) = Some v.
Proof.
  induction d as [|[k' v'] r IH]; simpl.
  - now rewrite String.eqb_refl.
  - destruct (k' =? k) eqn:E; simpl.
    + now rewrite String.eqb_refl.
    + now rewrite E.
Qed.

Lemma get_set_ne k k' v d :
  k <> k' -> SortedDict.get k' (SortedDict.set k v d) = SortedDict.get k' d.
Proof.
  intros Hne. induction d as [|[k0 v0] r IH]; simpl.
  - apply String.eqb_neq in Hne. now rewrite Hne.
  - destruct (String.eqb_spec k0 k) as [-> | H0]; simpl.
    + apply String.eqb_neq in Hne. now rewrite Hne.
    + now rewrite IH.
Qed.

Lemma keys_set_present k v d :
  In k (SortedDict.keys d) ->
  SortedDict.keys (SortedDict.set k v d) = SortedDict.keys d.
Proof.
  induction d as [|[k' v'] r IH]; simpl; [tauto |].
  intros H. destruct (String.eqb_spec k' k) as [-> | Hne]; simpl;
    [reflexivity |].
  f_equal. apply IH. destruct H; [contradiction | assumption].
Qed.

Lemma keys_set_absent k v d :
  ~ In k (SortedDict.keys d) ->
  SortedDict.keys (SortedDict.set k v d) = (SortedDict.keys d ++ [k])%list.
Proof.
  induction d as [|[k' v'] r IH]; simpl; [reflexivity |].
  intros H. destruct (String.eqb_spec k' k) as [-> | Hne]; simpl.
  - exfalso. apply H. now left.
  - f_equal. apply IH. tauto.
Qed.

Lemma get_remove_ne k k' d :
  k <> k' ->
  SortedDict.get k' (SortedDict.remove k d) = SortedDict.get k' d.
Proof.
  intros Hne. induction d as [|[k0 v0] r IH]; simpl; [reflexivity |].
  destruct (String.eqb_spec k0 k) as [-> | H0]; simpl.
  - apply String.eqb_neq in Hne. now rewrite Hne.
  - now rewrite IH.
Qed.

Lemma keys_remove k d :
  NoDup (SortedDict.keys d) ->
  SortedDict.keys (SortedDict.remove k d)
  = List.remove string_dec k (SortedDict.keys d).
Proof.
  induction d as [|[k' v'] r IH]; simpl; [reflexivity |].
  intros Hnd. inversion Hnd as [|? ? Hnotin Hnd']; subst.
  destruct (String.eqb_spec k' k) as [-> | Hne].
  - destruct (string_dec k k) as [_ | H]; [| contradiction].
    symmetry. now apply notin_remove.
  - destruct (string_dec k k') as [H | _]; [now subst |].
    simpl. f_equal. now apply IH.
Qed.

Lemma NoDup_remove_key k (l : list string) :
  NoDup l -> NoDup (List.remove string_dec k l).
Proof.
  induction l as [|a l IH]; simpl; [constructor |].
  intros Hnd. inversion Hnd as [|? ? Hnotin Hnd']; subst.
  destruct (string_dec k a); [now apply IH |].
  constructor; [| now apply IH].
  intros H. apply in_remove in H. tauto.
Qed.

End SortedDictFacts.

(* ===================================================================== *)
(** ** The constructor *)
(* ===================================================================== *)

Lemma has_key_In (k : string) (l : list string) :
  existsb (String.eqb k) l = true <-> In k l.
Proof.
  rewrite existsb_exists. split.
  - intros [x [Hx E]]. apply String.eqb_eq in E. now subst.
  - intros H. exists k. split; [assumption | apply String.eqb_refl].
Qed.

Lemma delitem_present (k : string) (d : Init.Fields) :
  In k (SortedDict.keys d) ->
  Init.delitem k d = inr (SortedDict.remove k d).
Proof.
  intros H. apply get_Some_iff in H. destruct H as [f Hf].
  unfold Init.delitem. now rewrite Hf.
Qed.

Lemma delitem_absent (k : string) (d : Init.Fields) :
  ~ In k (SortedDict.keys d) -> Init.delitem k d = inl (Init.KeyError k).
Proof.
  intros H. apply get_None_iff in H. unfold Init.delitem. now rewrite H.
Qed.

Lemma setattr_present (k : string) (c : Init.Field -> Init.Field)
    (d : Init.Fields) :
  In k (SortedDict.keys d) -> Init.setattr k c d = inr (Init.modify k c d).
Proof.
  intros H. apply get_Some_iff in H. destruct H as [f Hf].
  unfold Init.setattr, Init.modify. now rewrite Hf.
Qed.

Lemma setattr_absent (k : string) (c : Init.Field -> Init.Field)
    (d : Init.Fields) :
  ~ In k (SortedDict.keys d) -> Init.setattr k c d = inl (Init.KeyError k).
Proof.
  intros H. apply get_None_iff in H. unfold Init.setattr. now rewrite H.
Qed.

Lemma keys_modify (k : string) (c : Init.Field -> Init.Field)
    (d : Init.Fields) :
  SortedDict.keys (Init.modify k c d) = SortedDict.keys d.
Proof.
  unfold Init.modify. destruct (SortedDict.get k d) as [f|] eqn:E;
    [| reflexivity].
  apply keys_set_present. apply get_Some_iff. now exists f.
Qed.

Lemma get_modify_eq (k : string) (c : Init.Field -> Init.Field)
    (d : Init.Fields) :
  SortedDict.get k (Init.modify k c d) = option_map c (SortedDict.get k d).
Proof.
  unfold Init.modify. destruct (SortedDict.get k d) as [f|] eqn:E; simpl.
  - apply get_set_eq.
  - exact E.
Qed.

Lemma get_modify_ne (k k' : string) (c : Init.Field -> Init.Field)
    (d : Init.Fields) :
  k <> k' -> SortedDict.get k' (Init.modify k c d) = SortedDict.get k' d.
Proof.
  intros Hne. unfold Init.modify.
  destruct (SortedDict.get k d); [now apply get_set_ne | reflexivity].
Qed.

Lemma in_keys_remove_ne (k k' : string) (d : Init.Fields) :
  k <> k' ->
  In k' (SortedDict.keys (SortedDict.remove k d)) <-> In k' (SortedDict.keys d).
Proof.
  intros Hne. rewrite <- !get_Some_iff. now rewrite get_remove_ne.
Qed.

Lemma find_None_iff {A} (f : A -> bool) (l : list A) :
  find f l = None <-> forall x, In x l -> f x = false.
Proof.
  split; [apply find_none |].
  induction l as [|a l IH]; simpl; [reflexivity |].
  intros H. rewrite (H a (or_introl eq_refl)). apply IH.
  intros x Hx. apply H. now right.
Qed.

Section InitFacts.

Variable settings : Settings.
Variable default_template : string.
Variable page_templates : list (string * string).
Variable get_placeholders : string -> list Init.Placeholder.
Variable slug_in : Page -> string -> option Init.value.
Variable title_in : Page -> string -> option Init.value.

Local Abbreviation init :=
  (Init.__init__ settings default_template page_templates get_placeholders
                 slug_in title_in).
Local Abbreviation declared :=
  (Init.declared_fields settings default_template page_templates
                        slug_in title_in).
Local Abbreviation required := (Init.required_keys settings page_templates).
Local Abbreviation missing := (Init.first_missing settings page_templates).

Ltac key_in_fields :=
  repeat rewrite keys_modify;
  repeat (apply in_keys_remove_ne; [discriminate |]);
  apply has_key_In; assumption.

Ltac key_out_of_fields :=
  repeat rewrite keys_modify;
  repeat (rewrite in_keys_remove_ne by discriminate);
  rewrite <- has_key_In; congruence.

(** One statement of the constructor that asks for key [k]: it goes on when
    [base_fields] has the key and raises otherwise. *)
Ltac next_key k :=
  let E := fresh "E" in
  destruct (existsb (String.eqb k) (SortedDict.keys _)) eqn:E; cbn [negb];
  [ first [ rewrite (@delitem_present k) by key_in_fields
          | rewrite !(@setattr_present k) by key_in_fields ]
  | first [ rewrite (@delitem_absent k) by key_out_of_fields
          | rewrite (@setattr_absent k) by key_out_of_fields ];
    reflexivity ];
  cbn [bind Monad_either].

(** With both keyword arguments, the constructor either stops at the first
    required key that is missing or builds the declared fields and adds
    the placeholders. *)
Lemma init_outcome (kwargs : Init.Kwargs) (base : Init.Fields)
    (language template : string) :
  Init.kw_language kwargs = Some language ->
  Init.kw_template kwargs = Some template ->
  init kwargs base =
  match missing (Init.kw_instance kwargs) base with
  | Some k => inl (Init.KeyError k)
  | None =>
      inr {| Init.language := language;
             Init.fields :=
               fold_left
                 (Init.add_placeholder (Init.kw_instance kwargs) language)
                 (get_placeholders template)
                 (declared language template (Init.kw_instance kwargs) base) |}
  end.
Proof.
  intros Hl Ht.
  unfold Init.__init__, Init.first_missing, Init.required_keys.
  rewrite Hl, Ht. cbn [Init.pop bind ret Monad_either].
  destruct (GERBI_USE_SITE_ID settings) eqn:Hs;
    destruct (Init.kw_instance kwargs) as [p|] eqn:Hp;
    destruct (0 <? List.length page_templates)%nat eqn:Htm;
    cbn [app find];
    next_key "author"; next_key "last_modification_date";
    next_key "language";
    try next_key "sites"; try next_key "slug"; try next_key "title";
    try next_key "template";
    unfold Init.declared_fields; rewrite Hs, Htm; reflexivity.
Qed.

Lemma init_without_language (kwargs : Init.Kwargs) (base : Init.Fields) :
  Init.kw_language kwargs = None ->
  init kwargs base = inl (Init.KeyError "language").
Proof. intros H. unfold Init.__init__. now rewrite H. Qed.

Lemma init_without_template (kwargs : Init.Kwargs) (base : Init.Fields)
    (language : string) :
  Init.kw_language kwargs = Some language ->
  Init.kw_template kwargs = None ->
  init kwargs base = inl (Init.KeyError "template").
Proof. intros Hl Ht. unfold Init.__init__. now rewrite Hl, Ht. Qed.

Lemma missing_None_iff (page : option Page) (base : Init.Fields) :
  missing page base = None <->
  forall k, In k (required page) -> In k (SortedDict.keys base).
Proof.
  unfold Init.first_missing. rewrite find_None_iff.
  split; intros H k Hk; specialize (H k Hk).
  - apply negb_false_iff in H. now apply has_key_In.
  - apply negb_false_iff. now apply has_key_In.
Qed.

(** What a constructed form tells about the arguments. *)
Lemma init_success_inv (kwargs : Init.Kwargs) (base : Init.Fields)
    (form : Init.Form) :
  init kwargs base = inr form ->
  exists language template,
    Init.kw_language kwargs = Some language /\
    Init.kw_template kwargs = Some template /\
    missing (Init.kw_instance kwargs) base = None /\
    form = {| Init.language := language;
              Init.fields :=
                fold_left
                  (Init.add_placeholder (Init.kw_instance kwargs) language)
                  (get_placeholders template)
                  (declared language template (Init.kw_instance kwargs)
                            base) |}.
Proof.
  intros H.
  destruct (Init.kw_language kwargs) as [language|] eqn:Hl;
    [| rewrite (init_without_language _ _ Hl) in H; discriminate].
  destruct (Init.kw_template kwargs) as [template|] eqn:Ht;
    [| rewrite (init_without_template _ _ Hl Ht) in H; discriminate].
  rewrite (init_outcome _ _ Hl Ht) in H.
  destruct (missing (Init.kw_instance kwargs) base) eqn:Hm; [discriminate |].
  injection H as <-. now exists language, template.
Qed.

(** *** Reading the fields after construction *)

Lemma get_fold_other (page : option Page) (language k : string)
    (l : list Init.Placeholder) (d : Init.Fields) :
  ~ In k (map Init.name l) ->
  SortedDict.get k (fold_left (Init.add_placeholder page language) l d)
  = SortedDict.get k d.
Proof.
  revert d. induction l as [|p l IH]; intros d Hk; simpl; [reflexivity |].
  simpl in Hk. rewrite IH by tauto.
  unfold Init.add_placeholder. apply get_set_ne. tauto.
Qed.

Lemma get_fold_last (page : option Page) (language : string)
    (l1 l2 : list Init.Placeholder) (p : Init.Placeholder) (d : Init.Fields) :
  ~ In (Init.name p) (map Init.name l2) ->
  SortedDict.get (Init.name p)
    (fold_left (Init.add_placeholder page language) (l1 ++ p :: l2) d)
  = Some (Init.get_field p page language
            match page with
            | Some pg => Init.get_content p pg language (Init.name p)
            | None => None
            end).
Proof.
  intros H. rewrite fold_left_app. simpl.
  rewrite get_fold_other by assumption.
  unfold Init.add_placeholder at 1. apply get_set_eq.
Qed.

Lemma keys_fold (page : option Page) (language : string)
    (l : list Init.Placeholder) (d : Init.Fields) :
  NoDup (SortedDict.keys d) ->
  exists added,
    SortedDict.keys (fold_left (Init.add_placeholder page language) l d)
    = (SortedDict.keys d ++ added)%list /\
    NoDup (SortedDict.keys d ++ added) /\
    forall k, In k added <->
              In k (map Init.name l) /\ ~ In k (SortedDict.keys d).
Proof.
  revert d. induction l as [|p l IH]; intros d Hnd; simpl.
  - exists []. rewrite app_nil_r.
    split; [reflexivity | split; [assumption |]]. simpl. tauto.
  - unfold Init.add_placeholder at 2.
    set (f := Init.get_field p page language _).
    destruct (in_dec string_dec (Init.name p) (SortedDict.keys d))
      as [Hin | Hout].
    + destruct (IH (SortedDict.set (Init.name p) f d)) as [added [Hk [Hn Ha]]].
      { now rewrite (keys_set_present _ _ _ Hin). }
      rewrite (keys_set_present _ _ _ Hin) in Hk, Hn, Ha.
      exists added. split; [assumption | split; [assumption |]].
      intros k. rewrite Ha. split; [tauto |].
      intros [[<- | Hl] Hnot]; [contradiction | tauto].
    + assert (NoDup (SortedDict.keys d ++ [Init.name p])) as Hnd'.
      { apply NoDup_app; [assumption | repeat constructor; simpl; tauto |].
        intros k Hk [<- | []]. contradiction. }
      destruct (IH (SortedDict.set (Init.name p) f d)) as [added [Hk [Hn Ha]]].
      { now rewrite (keys_set_absent _ _ _ Hout). }
      rewrite (keys_set_absent _ _ _ Hout) in Hk, Hn, Ha.
      rewrite <- app_assoc in Hk, Hn.
      exists (Init.name p :: added).
      split; [assumption | split; [assumption |]].
      intros k. simpl. rewrite Ha, in_app_iff. simpl.
      destruct (string_dec (Init.name p) k) as [E | Hne];
        [subst k; intuition auto | tauto].
Qed.

Lemma keys_declared (language template : string) (page : option Page)
    (base : Init.Fields) :
  NoDup (SortedDict.keys base) ->
  SortedDict.keys (declared language template page base)
  = List.remove string_dec "last_modification_date"
      (List.remove string_dec "author" (SortedDict.keys base)).
Proof.
  intros Hnd. unfold Init.declared_fields.
  destruct (GERBI_USE_SITE_ID settings); destruct page;
    destruct (0 <? List.length page_templates)%nat;
    rewrite ?keys_modify;
    (rewrite keys_remove;
     [ now rewrite keys_remove
     | rewrite keys_remove by assumption; now apply NoDup_remove_key ]).
Qed.

Lemma get_declared_other (language template : string) (page : option Page)
    (base : Init.Fields) (k : string) :
  k <> "author" -> k <> "last_modification_date" -> k <> "language" ->
  (GERBI_USE_SITE_ID settings = true -> k <> "sites") ->
  (page <> None -> k <> "slug" /\ k <> "title") ->
  (page_templates <> [] -> k <> "template") ->
  SortedDict.get k (declared language template page base)
  = SortedDict.get k base.
Proof.
  intros Ha Hm Hl Hs Hp Ht. unfold Init.declared_fields.
  assert (page <> None -> k <> "slug") as Hp1 by (intros H; now apply Hp).
  assert (page <> None -> k <> "title") as Hp2 by (intros H; now apply Hp).
  assert ((0 <? List.length page_templates)%nat = true -> k <> "template")
    as Ht'.
  { intros H. apply Ht. intros E. rewrite E in H. discriminate. }
  clear Hp Ht.
  destruct (GERBI_USE_SITE_ID settings); destruct page as [p|];
    destruct (0 <? List.length page_templates)%nat;
    repeat (rewrite get_modify_ne;
            [| apply not_eq_sym;
               first [ assumption
                     | match goal with
                       | H : _ -> k <> ?s |- k <> ?s =>
                           apply H; first [reflexivity | discriminate]
                       end ] ]);
    rewrite !get_remove_ne; congruence.
Qed.

Lemma get_declared_language (language template : string)
    (page : option Page) (base : Init.Fields) :
  SortedDict.get "language" (declared language template page base)
  = option_map
      (fun f => Init.set_widget (Init.LanguageChoiceWidget page language)
                  (Init.set_initial (Some (Init.Str language)) f))
      (SortedDict.get "language" base).
Proof.
  unfold Init.declared_fields.
  destruct (GERBI_USE_SITE_ID settings); destruct page as [p|];
    destruct (0 <? List.length page_templates)%nat;
    rewrite ?get_modify_ne by discriminate;
    rewrite !get_modify_eq, !get_remove_ne by discriminate;
    now destruct (SortedDict.get "language" base).
Qed.

Lemma get_declared_sites (language template : string)
    (page : option Page) (base : Init.Fields) :
  GERBI_USE_SITE_ID settings = true ->
  SortedDict.get "sites" (declared language template page base)
  = option_map (Init.set_initial (Some (Init.Ids [SITE_ID settings])))
               (SortedDict.get "sites" base).
Proof.
  intros Hs. unfold Init.declared_fields. rewrite Hs.
  destruct page as [p|]; destruct (0 <? List.length page_templates)%nat;
    rewrite ?get_modify_ne by discriminate;
    rewrite get_modify_eq, !get_modify_ne, !get_remove_ne by discriminate;
    reflexivity.
Qed.

Lemma get_declared_slug (language template : string) (p : Page)
    (base : Init.Fields) :
  SortedDict.get "slug" (declared language template (Some p) base)
  = option_map (Init.set_initial (slug_in p language))
               (SortedDict.get "slug" base).
Proof.
  unfold Init.declared_fields.
  destruct (GERBI_USE_SITE_ID settings);
    destruct (0 <? List.length page_templates)%nat;
    rewrite ?(@get_modify_ne "template") by discriminate;
    rewrite (@get_modify_ne "title") by discriminate;
    rewrite get_modify_eq, ?get_modify_ne, !get_remove_ne by discriminate;
    reflexivity.
Qed.

Lemma get_declared_title (language template : string) (p : Page)
    (base : Init.Fields) :
  SortedDict.get "title" (declared language template (Some p) base)
  = option_map (Init.set_initial (title_in p language))
               (SortedDict.get "title" base).
Proof.
  unfold Init.declared_fields.
  destruct (GERBI_USE_SITE_ID settings);
    destruct (0 <? List.length page_templates)%nat;
    rewrite ?(@get_modify_ne "template") by discriminate;
    rewrite get_modify_eq, ?get_modify_ne, !get_remove_ne by discriminate;
    reflexivity.
Qed.

Lemma get_declared_template (language template : string)
    (page : option Page) (base : Init.Fields) :
  page_templates <> [] ->
  SortedDict.get "template" (declared language template page base)
  = option_map
      (fun f => Init.set_initial (Some (Init.Str template))
                  (Init.set_choices
                     ((default_template, "Default template") :: page_templates)
                     f))
      (SortedDict.get "template" base).
Proof.
  intros Hne. unfold Init.declared_fields.
  assert ((0 <? List.length page_templates)%nat = true) as ->
    by (destruct page_templates; [contradiction | reflexivity]).
  destruct (GERBI_USE_SITE_ID settings); destruct page as [p|];
    rewrite !get_modify_eq, ?get_modify_ne, !get_remove_ne by discriminate;
    now destruct (SortedDict.get "template" base).
Qed.

(** *** What the constructor does *)

(** X1.  The constructor builds a form exactly when both keyword arguments
    [language] and [template] are passed and the fields it starts from
    hold every key it asks for: author, last_modification_date and
    language, sites when site scoping is enabled, slug and title when an
    instance is passed, template when there are page templates. *)
Theorem init_succeeds_iff (kwargs : Init.Kwargs) (base : Init.Fields) :
  (exists form, init kwargs base = inr form) <->
  Init.kw_language kwargs <> None /\ Init.kw_template kwargs <> None /\
  forall k, In k (required (Init.kw_instance kwargs)) ->
            In k (SortedDict.keys base).
Proof.
  split.
  - intros [form H]. apply init_success_inv in H.
    destruct H as [language [template [Hl [Ht [Hm _]]]]].
    rewrite Hl, Ht. repeat split; try discriminate.
    now apply missing_None_iff.
  - intros [Hl [Ht Hk]].
    destruct (Init.kw_language kwargs) as [language|] eqn:El;
      [| contradiction].
    destruct (Init.kw_template kwargs) as [template|] eqn:Et;
      [| contradiction].
    rewrite (init_outcome _ _ El Et).
    rewrite (proj2 (missing_None_iff _ _) Hk). eauto.
Qed.

(** X2.  The constructor raises KeyError for exactly one key: "language"
    when that keyword argument is missing, else "template" when that one
    is, else the first key it asks for that the fields lack. *)
Theorem init_raises_first_missing (kwargs : Init.Kwargs) (base : Init.Fields)
    (k : string) :
  init kwargs base = inl (Init.KeyError k) <->
  (Init.kw_language kwargs = None /\ k = "language") \/
  (Init.kw_language kwargs <> None /\ Init.kw_template kwargs = None /\
   k = "template") \/
  (Init.kw_language kwargs <> None /\ Init.kw_template kwargs <> None /\
   missing (Init.kw_instance kwargs) base = Some k).
Proof.
  destruct (Init.kw_language kwargs) as [language|] eqn:El.
  - destruct (Init.kw_template kwargs) as [template|] eqn:Et.
    + rewrite (init_outcome _ _ El Et).
      destruct (missing (Init.kw_instance kwargs) base) as [k'|]; split.
      * intros [= ->]. right. right. repeat split; discriminate.
      * intros [[H _] | [[_ [H _]] | [_ [_ [= ->]]]]];
          [discriminate .. | reflexivity].
      * discriminate.
      * intros [[H _] | [[_ [H _]] | [_ [_ H]]]]; discriminate.
    + rewrite (init_without_template _ _ El Et). split.
      * intros [= <-]. right. left. repeat split; discriminate.
      * intros [[H _] | [[_ [_ ->]] | [_ [H _]]]];
          [discriminate | reflexivity | contradiction].
  - rewrite (init_without_language _ _ El). split.
    + intros [= <-]. now left.
    + intros [[_ ->] | [[H _] | [H _]]];
        [reflexivity | contradiction ..].
Qed.

(** X3.  On a dictionary with unique keys, the constructed form keeps the
    fields it started from, author and last_modification_date taken out,
    in their order, and appends those placeholders of the template whose
    names are not among them; keys stay unique.  So neither of the two is
    a field of the form unless a placeholder bears its name. *)
Theorem init_keys (kwargs : Init.Kwargs) (base : Init.Fields)
    (form : Init.Form) (template : string) :
  init kwargs base = inr form ->
  Init.kw_template kwargs = Some template ->
  NoDup (SortedDict.keys base) ->
  let kept :=
    List.remove string_dec "last_modification_date"
      (List.remove string_dec "author" (SortedDict.keys base)) in
  let names := map Init.name (get_placeholders template) in
  exists added,
    SortedDict.keys (Init.fields form) = (kept ++ added)%list /\
    NoDup (SortedDict.keys (Init.fields form)) /\
    (forall k, In k added <-> In k names /\ ~ In k kept) /\
    (forall k, k = "author" \/ k = "last_modification_date" ->
               In k (SortedDict.keys (Init.fields form)) -> In k names).
Proof.
  intros H Ht Hnd kept names. apply init_success_inv in H.
  destruct H as [language [template' [Hl [Ht' [Hm ->]]]]].
  rewrite Ht in Ht'. injection Ht' as <-. cbn [Init.fields].
  destruct (keys_fold (Init.kw_instance kwargs) language
              (get_placeholders template)
              (declared language template (Init.kw_instance kwargs) base))
    as [added [Hk [Hn Ha]]].
  { rewrite keys_declared by assumption.
    now apply NoDup_remove_key, NoDup_remove_key. }
  rewrite keys_declared in Hk, Hn, Ha by assumption.
  exists added. rewrite Hk. repeat split; try apply Ha; try assumption.
  intros k Hk' Hin. apply in_app_or in Hin. destruct Hin as [Hin | Hin].
  - exfalso. unfold kept in Hin. apply in_remove in Hin.
    destruct Hin as [Hin Hne]. apply in_remove in Hin. destruct Hk'; tauto.
  - now apply Ha in Hin.
Qed.

(** X4.  A field the constructor has no business with is left as it was:
    one that is not author, last_modification_date or language, not sites
    when site scoping is enabled, not slug or title when an instance is
    passed, not template when there are page templates, and that no
    placeholder of the template is named after.  So the slug and the title
    of a new page, the sites without site scoping and the template without
    page templates keep what they were declared with. *)
Theorem init_leaves_other_fields (kwargs : Init.Kwargs) (base : Init.Fields)
    (form : Init.Form) (template k : string) :
  init kwargs base = inr form ->
  Init.kw_template kwargs = Some template ->
  k <> "author" -> k <> "last_modification_date" -> k <> "language" ->
  (GERBI_USE_SITE_ID settings = true -> k <> "sites") ->
  (Init.kw_instance kwargs <> None -> k <> "slug" /\ k <> "title") ->
  (page_templates <> [] -> k <> "template") ->
  ~ In k (map Init.name (get_placeholders template)) ->
  SortedDict.get k (Init.fields form) = SortedDict.get k base.
Proof.
  intros H Ht Ha Hm Hl Hs Hp Htm Hn. apply init_success_inv in H.
  destruct H as [language [template' [_ [Ht' [_ ->]]]]].
  rewrite Ht in Ht'. injection Ht' as <-. cbn [Init.fields].
  rewrite get_fold_other by assumption.
  now apply get_declared_other.
Qed.

(** X5.  The constructed form records the language it was given, and its
    language field, unless a placeholder is named "language", is the
    declared one with that language as initial value and the language
    chooser of the page as widget.  With site scoping enabled its sites
    field, unless a placeholder is named "sites", is the declared one with
    the current site as only initial value. *)
Theorem init_language_and_sites (kwargs : Init.Kwargs) (base : Init.Fields)
    (form : Init.Form) (language template : string) :
  init kwargs base = inr form ->
  Init.kw_language kwargs = Some language ->
  Init.kw_template kwargs = Some template ->
  let names := map Init.name (get_placeholders template) in
  Init.language form = language
  /\ (~ In "language" names ->
      exists f, SortedDict.get "language" base = Some f /\
        SortedDict.get "language" (Init.fields form)
        = Some {| Init.initial := Some (Init.Str language);
                  Init.choices := Init.choices f;
                  Init.field_widget :=
                    Init.LanguageChoiceWidget (Init.kw_instance kwargs)
                                              language |})
  /\ (GERBI_USE_SITE_ID settings = true -> ~ In "sites" names ->
      exists f, SortedDict.get "sites" base = Some f /\
        SortedDict.get "sites" (Init.fields form)
        = Some {| Init.initial := Some (Init.Ids [SITE_ID settings]);
                  Init.choices := Init.choices f;
                  Init.field_widget := Init.field_widget f |}).
Proof.
  intros H Hl Ht names. apply init_success_inv in H.
  destruct H as [language' [template' [Hl' [Ht' [Hm ->]]]]].
  rewrite Hl in Hl'. injection Hl' as <-.
  rewrite Ht in Ht'. injection Ht' as <-. cbn [Init.fields Init.language].
  pose proof (proj1 (missing_None_iff _ _) Hm) as Hreq.
  split; [reflexivity | split].
  - intros Hn.
    assert (In "language" (SortedDict.keys base)) as Hin
      by (apply Hreq; unfold Init.required_keys; simpl; tauto).
    apply get_Some_iff in Hin. destruct Hin as [f Hf]. exists f.
    split; [assumption |].
    rewrite get_fold_other by assumption.
    now rewrite get_declared_language, Hf.
  - intros Hs Hn.
    assert (In "sites" (SortedDict.keys base)) as Hin
      by (apply Hreq; unfold Init.required_keys; rewrite Hs; simpl; tauto).
    apply get_Some_iff in Hin. destruct Hin as [f Hf]. exists f.
    split; [assumption |].
    rewrite get_fold_other by assumption.
    now rewrite get_declared_sites, Hf.
Qed.

(** X6.  When an instance is passed, the slug field and the title field of
    the constructed form, unless a placeholder bears the name, are the
    declared ones with the slug and the title of the page in the language
    of the form as initial values. *)
Theorem init_prefills_slug_and_title (kwargs : Init.Kwargs)
    (base : Init.Fields) (form : Init.Form) (p : Page)
    (language template : string) :
  init kwargs base = inr form ->
  Init.kw_instance kwargs = Some p ->
  Init.kw_language kwargs = Some language ->
  Init.kw_template kwargs = Some template ->
  let names := map Init.name (get_placeholders template) in
  (~ In "slug" names ->
   exists f, SortedDict.get "slug" base = Some f /\
     SortedDict.get "slug" (Init.fields form)
     = Some (Init.set_initial (slug_in p language) f))
  /\ (~ In "title" names ->
      exists f, SortedDict.get "title" base = Some f /\
        SortedDict.get "title" (Init.fields form)
        = Some (Init.set_initial (title_in p language) f)).
Proof.
  intros H Hp Hl Ht names. apply init_success_inv in H.
  destruct H as [language' [template' [Hl' [Ht' [Hm ->]]]]].
  rewrite Hl in Hl'. injection Hl' as <-.
  rewrite Ht in Ht'. injection Ht' as <-. cbn [Init.fields].
  rewrite Hp in *.
  pose proof (proj1 (missing_None_iff _ _) Hm) as Hreq.
  split; intros Hn.
  - assert (In "slug" (SortedDict.keys base)) as Hin.
    { apply Hreq. unfold Init.required_keys. rewrite !in_app_iff.
      simpl. tauto. }
    apply get_Some_iff in Hin. destruct Hin as [f Hf]. exists f.
    split; [assumption |].
    rewrite get_fold_other by assumption.
    now rewrite get_declared_slug, Hf.
  - assert (In "title" (SortedDict.keys base)) as Hin.
    { apply Hreq. unfold Init.required_keys. rewrite !in_app_iff.
      simpl. tauto. }
    apply get_Some_iff in Hin. destruct Hin as [f Hf]. exists f.
    split; [assumption |].
    rewrite get_fold_other by assumption.
    now rewrite get_declared_title, Hf.
Qed.

(** X7.  When there are page templates, the template field of the
    constructed form, unless a placeholder is named "template", offers the
    default template first, under the label "Default template", then the
    page templates in their order, and has the template of the form as
    initial value. *)
Theorem init_template_choices (kwargs : Init.Kwargs) (base : Init.Fields)
    (form : Init.Form) (template : string) :
  init kwargs base = inr form ->
  Init.kw_template kwargs = Some template ->
  page_templates <> [] ->
  ~ In "template" (map Init.name (get_placeholders template)) ->
  exists f, SortedDict.get "template" base = Some f /\
    SortedDict.get "template" (Init.fields form)
    = Some {| Init.initial := Some (Init.Str template);
              Init.choices :=
                (default_template, "Default template") :: page_templates;
              Init.field_widget := Init.field_widget f |}.
Proof.
  intros H Ht Htm Hn. apply init_success_inv in H.
  destruct H as [language [template' [_ [Ht' [Hm ->]]]]].
  rewrite Ht in Ht'. injection Ht' as <-. cbn [Init.fields].
  pose proof (proj1 (missing_None_iff _ _) Hm) as Hreq.
  assert (In "template" (SortedDict.keys base)) as Hin.
  { apply Hreq. unfold Init.required_keys. rewrite !in_app_iff.
    right. right. right.
    destruct page_templates; [contradiction | now left]. }
  apply get_Some_iff in Hin. destruct Hin as [f Hf]. exists f.
  split; [assumption |].
  rewrite get_fold_other by assumption.
  now rewrite get_declared_template, Hf.
Qed.

(** X8.  Every placeholder of the template has a field under its name in
    the constructed form, and where several placeholders share a name the
    last one gives the field.  The field is the one the placeholder makes
    for the page and the language, from the content it holds for the page,
    or from no content when no instance is passed.  It replaces a declared
    field of the same name. *)
Theorem init_placeholder_fields (kwargs : Init.Kwargs) (base : Init.Fields)
    (form : Init.Form) (language template : string)
    (before after : list Init.Placeholder) (p : Init.Placeholder) :
  init kwargs base = inr form ->
  Init.kw_language kwargs = Some language ->
  Init.kw_template kwargs = Some template ->
  get_placeholders template = (before ++ p :: after)%list ->
  ~ In (Init.name p) (map Init.name after) ->
  SortedDict.get (Init.name p) (Init.fields form)
  = Some (Init.get_field p (Init.kw_instance kwargs) language
            match Init.kw_instance kwargs with
            | Some page => Init.get_content p page language (Init.name p)
            | None => None
            end).
Proof.
  intros H Hl Ht Hps Hlast. apply init_success_inv in H.
  destruct H as [language' [template' [Hl' [Ht' [_ ->]]]]].
  rewrite Hl in Hl'. injection Hl' as <-.
  rewrite Ht in Ht'. injection Ht' as <-. cbn [Init.fields].
  rewrite Hps. now apply get_fold_last.
Qed.

End InitFacts.

(** *** The constructor on the example site *)

Ltac distinct_keys :=
  repeat (constructor; [simpl; intuition discriminate |]); constructor.

Lemma construct_edit_about : construct edit_about = inr about_form.
Proof. reflexivity. Qed.

Lemma about_form_keys :
  exists added,
    SortedDict.keys (Init.fields about_form)
    = (List.remove string_dec "last_modification_date"
         (List.remove string_dec "author" (SortedDict.keys page_form_fields))
       ++ added)%list /\
    NoDup (SortedDict.keys (Init.fields about_form)) /\
    (forall k, In k added <->
               In k (map Init.name (article_placeholders "article.html")) /\
               ~ In k (List.remove string_dec "last_modification_date"
                         (List.remove string_dec "author"
                            (SortedDict.keys page_form_fields)))) /\
    (forall k, k = "author" \/ k = "last_modification_date" ->
               In k (SortedDict.keys (Init.fields about_form)) ->
               In k (map Init.name (article_placeholders "article.html"))).
Proof.
  apply (@init_keys site_mode "default.html" article_templates
           article_placeholders stored_slug stored_title
           edit_about page_form_fields about_form "article.html");
    [reflexivity | reflexivity | distinct_keys].
Defined.

Lemma about_form_target_field :
  SortedDict.get "target" (Init.fields about_form)
  = SortedDict.get "target" page_form_fields.
Proof.
  apply (@init_leaves_other_fields site_mode "default.html" article_templates
           article_placeholders stored_slug stored_title
           edit_about page_form_fields about_form "article.html" "target");
    try reflexivity; try discriminate;
    try (intros _; split; discriminate).
  simpl. intuition discriminate.
Defined.

Lemma about_form_language_and_sites :
  Init.language about_form = "en"
  /\ (~ In "language" (map Init.name (article_placeholders "article.html")) ->
      exists f, SortedDict.get "language" page_form_fields = Some f /\
        SortedDict.get "language" (Init.fields about_form)
        = Some {| Init.initial := Some (Init.Str "en");
                  Init.choices := Init.choices f;
                  Init.field_widget :=
                    Init.LanguageChoiceWidget (Some 2%positive) "en" |})
  /\ (GERBI_USE_SITE_ID site_mode = true ->
      ~ In "sites" (map Init.name (article_placeholders "article.html")) ->
      exists f, SortedDict.get "sites" page_form_fields = Some f /\
        SortedDict.get "sites" (Init.fields about_form)
        = Some {| Init.initial := Some (Init.Ids [SITE_ID site_mode]);
                  Init.choices := Init.choices f;
                  Init.field_widget := Init.field_widget f |}).
Proof.
  apply (@init_language_and_sites site_mode "default.html" article_templates
           article_placeholders stored_slug stored_title
           edit_about page_form_fields about_form "en" "article.html");
    reflexivity.
Defined.

Lemma about_form_slug_and_title :
  (~ In "slug" (map Init.name (article_placeholders "article.html")) ->
   exists f, SortedDict.get "slug" page_form_fields = Some f /\
     SortedDict.get "slug" (Init.fields about_form)
     = Some (Init.set_initial (Some (Init.Str "about")) f))
  /\ (~ In "title" (map Init.name (article_placeholders "article.html")) ->
      exists f, SortedDict.get "title" page_form_fields = Some f /\
        SortedDict.get "title" (Init.fields about_form)
        = Some (Init.set_initial None f)).
Proof.
  apply (@init_prefills_slug_and_title site_mode "default.html"
           article_templates article_placeholders stored_slug stored_title
           edit_about page_form_fields about_form 2%positive "en"
           "article.html");
    reflexivity.
Defined.

Lemma about_form_template_choices :
  exists f, SortedDict.get "template" page_form_fields = Some f /\
    SortedDict.get "template" (Init.fields about_form)
    = Some {| Init.initial := Some (Init.Str "article.html");
              Init.choices :=
                [("default.html", "Default template");
                 ("article.html", "Article"); ("news.html", "News")];
              Init.field_widget := Init.field_widget f |}.
Proof.
  apply (@init_template_choices site_mode "default.html" article_templates
           article_placeholders stored_slug stored_title
           edit_about page_form_fields about_form "article.html");
    [reflexivity | reflexivity | discriminate | simpl; intuition discriminate].
Defined.

Lemma about_form_body_field :
  SortedDict.get "body" (Init.fields about_form)
  = Some {| Init.initial := Some (Init.Str "second body");
            Init.choices := [];
            Init.field_widget := Init.Declared "Textarea" |}.
Proof.
  apply (@init_placeholder_fields site_mode "default.html" article_templates
           article_placeholders stored_slug stored_title
           edit_about page_form_fields about_form "en" "article.html"
           [text_placeholder "body" "first body";
            text_placeholder "summary" "a summary"]
           [] (text_placeholder "body" "second body"));
    try reflexivity.
  simpl. tauto.
Defined.

(* ===================================================================== *)
(** ** Trimming and normalising *)
(* ===================================================================== *)

Lemma lstrip_all_space (sp : ascii -> bool) (ws : string) :
  all_chars sp ws = true -> Text.lstrip sp ws = "".
Proof.
  induction ws as [|c r IH]; simpl; [reflexivity |].
  intros H. apply andb_true_iff in H. destruct H as [-> Hr]. now apply IH.
Qed.

Lemma rstrip_all_space (sp : ascii -> bool) (ws : string) :
  all_chars sp ws = true -> Text.rstrip sp ws = "".
Proof.
  induction ws as [|c r IH]; simpl; [reflexivity |].
  intros H. apply andb_true_iff in H. destruct H as [Hc Hr].
  now rewrite (IH Hr), Hc.
Qed.

Lemma lstrip_padding (sp : ascii -> bool) (ws s : string) :
  all_chars sp ws = true -> Text.lstrip sp (ws ++ s) = Text.lstrip sp s.
Proof.
  induction ws as [|c r IH]; simpl; [reflexivity |].
  intros H. apply andb_true_iff in H. destruct H as [-> Hr]. now apply IH.
Qed.

Lemma rstrip_padding (sp : ascii -> bool) (s ws : string) :
  all_chars sp ws = true -> Text.rstrip sp (s ++ ws) = Text.rstrip sp s.
Proof.
  intros H. induction s as [|c r IH]; simpl.
  - now apply rstrip_all_space.
  - now rewrite IH.
Qed.

Lemma strip_with_padding (sp : ascii -> bool) (before s after : string) :
  all_chars sp before = true -> all_chars sp after = true ->
  Text.strip_with sp (before ++ s ++ after) = Text.strip_with sp s.
Proof.
  intros Hb Ha. unfold Text.strip_with. rewrite (lstrip_padding _ _ _ Hb).
  induction s as [|c r IH]; simpl.
  - now rewrite (lstrip_all_space _ _ Ha).
  - destruct (sp c); [exact IH |].
    change (String c (r ++ after)) with (String c r ++ after).
    now apply rstrip_padding.
Qed.

Lemma lstrip_no_space (sp : ascii -> bool) (s : string) :
  all_chars (fun c => negb (sp c)) s = true -> Text.lstrip sp s = s.
Proof.
  destruct s as [|c r]; simpl; [reflexivity |].
  intros H. apply andb_true_iff in H. destruct H as [Hc _].
  apply negb_true_iff in Hc. now rewrite Hc.
Qed.

Lemma rstrip_no_space (sp : ascii -> bool) (s : string) :
  all_chars (fun c => negb (sp c)) s = true -> Text.rstrip sp s = s.
Proof.
  induction s as [|c r IH]; simpl; [reflexivity |].
  intros H. apply andb_true_iff in H. destruct H as [Hc Hr].
  apply negb_true_iff in Hc. rewrite (IH Hr), Hc. now destruct r.
Qed.

Lemma all_chars_impl (p q : ascii -> bool) (s : string) :
  (forall c, p c = true -> q c = true) ->
  all_chars p s = true -> all_chars q s = true.
Proof.
  intros Hpq. induction s as [|c r IH]; simpl; [reflexivity |].
  intros H. apply andb_true_iff in H. destruct H as [Hc Hr].
  now rewrite (Hpq c Hc), IH.
Qed.

Lemma filter_all (p : ascii -> bool) (s : string) :
  all_chars p s = true -> Text.filter p s = s.
Proof.
  induction s as [|c r IH]; simpl; [reflexivity |].
  intros H. apply andb_true_iff in H. destruct H as [-> Hr]. now rewrite IH.
Qed.

Lemma filter_none (p q : ascii -> bool) (s : string) :
  (forall c, q c = true -> p c = false) ->
  all_chars q s = true -> Text.filter p s = "".
Proof.
  intros Hq. induction s as [|c r IH]; simpl; [reflexivity |].
  intros H. apply andb_true_iff in H. destruct H as [Hc Hr].
  now rewrite (Hq c Hc), IH.
Qed.


Lemma map_fixed (p : ascii -> bool) (f : ascii -> ascii) (s : string) :
  (forall c, p c = true -> f c = c) ->
  all_chars p s = true -> Text.map f s = s.
Proof.
  intros Hf. induction s as [|c r IH]; simpl; [reflexivity |].
  intros H. apply andb_true_iff in H. destruct H as [Hc Hr].
  now rewrite (Hf c Hc), IH.
Qed.

Lemma hyphenate_runs_single (in_run : bool) (s : string) :
  separators_single in_run (Text.hyphenate_runs in_run s) = true.
Proof.
  revert in_run. induction s as [|c r IH]; intros in_run; simpl;
    [reflexivity |].
  destruct (Text.is_hyphen c || Text.re_space c) eqn:E.
  - destruct in_run; [apply IH |]. simpl. apply IH.
  - simpl. rewrite E. apply IH.
Qed.

Lemma hyphenate_runs_fixed (in_run : bool) (s : string) :
  separators_single in_run s = true -> Text.hyphenate_runs in_run s = s.
Proof.
  revert in_run. induction s as [|c r IH]; intros in_run; simpl;
    [reflexivity |].
  destruct (Text.is_hyphen c || Text.re_space c).
  - intros H. apply andb_true_iff in H. destruct H as [H Hr].
    apply andb_true_iff in H. destruct H as [Hb Hc].
    apply negb_true_iff in Hb. subst in_run.
    apply Ascii.eqb_eq in Hc. subst c. now rewrite (IH true Hr).
  - intros H. now rewrite (IH false H).
Qed.

(** What a slug character is not, and what lowercasing does to it. *)
Lemma slug_char_facts (c : ascii) :
  slug_char c = true ->
  Text.between 0 127 c = true /\
  Text.re_word c || Text.re_space c || Text.is_hyphen c = true /\
  Text.re_space c = false /\ Text.isspace c = false /\
  Text.lower_char c = c.
Proof.
  destruct c as [b0 b1 b2 b3 b4 b5 b6 b7].
  destruct b0, b1, b2, b3, b4, b5, b6, b7; vm_compute;
    intros H; first [discriminate H | repeat split].
Qed.

(** Django's slugify leaves its own results alone, also after trimming. *)
Lemma django_slugify_fixed (value : string) :
  django_slugify (Text.strip (django_slugify value)) = django_slugify value.
Proof.
  pose proof (django_slugify_chars value) as Hc.
  assert (separators_single false (django_slugify value) = true) as Hs
    by apply hyphenate_runs_single.
  set (s := django_slugify value) in *.
  assert (Text.strip s = s) as ->.
  { unfold Text.strip, Text.strip_with.
    assert (all_chars (fun c => negb (Text.isspace c)) s = true) as Hn.
    { revert Hc. apply all_chars_impl. intros c H.
      apply slug_char_facts in H. destruct H as [_ [_ [_ [-> _]]]].
      reflexivity. }
    now rewrite (lstrip_no_space _ _ Hn), (rstrip_no_space _ _ Hn). }
  unfold django_slugify at 1.
  rewrite (@filter_all (Text.between 0 127) s)
    by (revert Hc; apply all_chars_impl; intros c H;
        now apply slug_char_facts in H).
  rewrite (@filter_all _ s)
    by (revert Hc; apply all_chars_impl; intros c H;
        now apply slug_char_facts in H).
  assert (all_chars (fun c => negb (Text.re_space c)) s = true) as Hn.
  { revert Hc. apply all_chars_impl. intros c H.
    apply slug_char_facts in H. destruct H as [_ [_ [-> _]]]. reflexivity. }
  unfold Text.strip_with.
  rewrite (lstrip_no_space _ _ Hn), (rstrip_no_space _ _ Hn).
  unfold Text.lower.
  rewrite (@map_fixed slug_char)
    by (first [ exact Hc | intros c H; now apply slug_char_facts in H ]).
  now apply hyphenate_runs_fixed.
Qed.


(* ===================================================================== *)
(** ** More on clean_slug *)
(* ===================================================================== *)

Section Outcomes.

Variable slugify : string -> string.
Variable settings : Settings.
Variable db : Database.
Variable self : PageForm.

Local Abbreviation slug' := (normalized slugify self).
Local Abbreviation run' := (clean_slug slugify settings db self).

(** X9.  A page that is not saved yet cannot be validated in another
    language than the default one: whatever the slug, the mode, the target
    and the position, clean_slug raises the default-slug-required
    error. *)
Theorem new_page_needs_default_language :
  instance self = None ->
  language self <> GERBI_DEFAULT_LANGUAGE settings ->
  raises run' default_slug_required.
Proof.
  intros Hi Hl. apply raises_default_iff. right. split; [assumption |].
  intros c _ _. rewrite Hi. discriminate.
Qed.

(** How clean_slug fails: in the default-slug check, in the uniqueness
    check of unique mode, or in the position check of the other mode. *)
Lemma run_fails_inv (e : exn) :
  run' = inl e ->
  (e = ValidationError default_slug_required /\
   slug_missing slugify settings db self) \/
  (~ slug_missing slugify settings db self /\
   GERBI_UNIQUE_SLUG_REQUIRED settings = true /\
   e = ValidationError another_page_error) \/
  (~ slug_missing slugify settings db self /\
   GERBI_UNIQUE_SLUG_REQUIRED settings = false /\
   check_position slugify settings db self = inl e).
Proof.
  intros H. rewrite clean_slug_steps in H.
  destruct (check_default_slug_cases slugify settings db self)
    as [[E Hm] | [E Hm]]; rewrite E in H.
  - injection H as <-. now left.
  - right. destruct (GERBI_UNIQUE_SLUG_REQUIRED settings) eqn:Hu.
    + left. rewrite (check_position_unique slugify settings db self Hu) in H.
      destruct (check_unique_cases slugify settings db self Hu)
        as [[E' _] | [E' _]]; rewrite E' in H; [| discriminate].
      injection H as <-. repeat split. exact Hm.
    + right. rewrite (check_unique_off slugify settings db self Hu) in H.
      destruct (check_position slugify settings db self) as [e'|[]];
        [| discriminate].
      injection H as <-. repeat split. exact Hm.
Qed.


(** The position check: what it raises and on which form. *)
Lemma check_position_errors (e : exn) :
  GERBI_UNIQUE_SLUG_REQUIRED settings = false ->
  check_position slugify settings db self = inl e ->
  match e with
  | ValidationError sibling_position_error =>
      exists t pos, target self = Some t /\ position self = Some pos /\
                    (pos = "left" \/ pos = "right")
  | ValidationError child_error =>
      exists t, target self = Some t /\ position self = Some "first-child"
  | ValidationError sibling_error =>
      placed self = false /\ instance self <> None
  | ValidationError sibling_root_error =>
      placed self = false /\ instance self = None
  | ValidationError _ => False
  | DoesNotExist =>
      exists t, target self = Some t /\ truthy (position self) = true /\
                exists_page db t = false
  end.
Proof.
  intros Hu H. destruct (placed self) eqn:Hpl.
  - unfold placed in Hpl.
    destruct (target self) as [t|] eqn:Ht; [| discriminate].
    destruct (position self) as [pos|] eqn:Hp; [| discriminate].
    assert (pos <> "") as Hne
      by (cbn in Hpl; now apply negb_true_iff, String.eqb_neq in Hpl).
    rewrite (check_position_placed slugify settings db self Hu Ht Hp Hne) in H.
    destruct (exists_page db t) eqn:He.
    + destruct (string_dec pos "left") as [Hl | Hl];
        [| destruct (string_dec pos "right") as [Hr | Hr]].
      1, 2: assert (pos = "left" \/ pos = "right") as Hlr by tauto;
        destruct (check_target_beside slugify settings db self t He Hlr)
          as [[E _] | [E _]]; rewrite E in H; [| discriminate];
        injection H as <-; now exists t, pos.
      destruct (string_dec pos "first-child") as [Hf | Hf].
      * subst pos.
        destruct (check_target_below slugify settings db self t He)
          as [[E _] | [E _]]; rewrite E in H; [| discriminate].
        injection H as <-. now exists t.
      * rewrite (check_target_elsewhere slugify settings db self t He Hl Hr Hf)
          in H. discriminate.
    + rewrite (check_target_missing slugify settings db self t pos He) in H.
      injection H as <-. exists t. now rewrite Hpl.
  - rewrite (check_position_unplaced slugify settings db self Hu Hpl) in H.
    destruct (instance self) as [i|] eqn:Hi.
    + destruct (check_current_level_edited slugify settings db self Hi)
        as [[E _] | [E _]]; rewrite E in H; [| discriminate].
      injection H as <-. split; [reflexivity | discriminate].
    + destruct (check_current_level_new slugify settings db self Hi)
        as [[E _] | [E _]]; rewrite E in H; [| discriminate].
      injection H as <-. now split.
Qed.

(** X11.  With unique mode disabled, every way clean_slug fails tells what
    was submitted: the default-slug-required error, that the default slug
    is missing; the sibling-at-position error, a target with position left
    or right; the child error, a target with position first-child; the
    sibling error, an edited page without target and position; the
    sibling-at-root error, a new page without target and position;
    DoesNotExist, a target with a position that names no page.  The
    duplicate-page error is never raised. *)
Theorem position_mode_errors (e : exn) :
  GERBI_UNIQUE_SLUG_REQUIRED settings = false ->
  run' = inl e ->
  match e with
  | ValidationError default_slug_required =>
      slug_missing slugify settings db self
  | ValidationError another_page_error => False
  | ValidationError sibling_position_error =>
      exists t pos, target self = Some t /\ position self = Some pos /\
                    (pos = "left" \/ pos = "right")
  | ValidationError child_error =>
      exists t, target self = Some t /\ position self = Some "first-child"
  | ValidationError sibling_error =>
      placed self = false /\ instance self <> None
  | ValidationError sibling_root_error =>
      placed self = false /\ instance self = None
  | DoesNotExist =>
      exists t, target self = Some t /\ truthy (position self) = true /\
                exists_page db t = false
  end.
Proof.
  intros Hu H.
  destruct (run_fails_inv H) as [[-> Hm] | [[_ [Hu' _]] | [_ [_ Hp]]]].
  - exact Hm.
  - congruence.
  - pose proof (check_position_errors Hu Hp) as Hc.
    destruct e as [[]|]; try exact Hc; try contradiction.
Qed.


End Outcomes.

Section Invariance.

Variable slugify : string -> string.
Variable settings : Settings.
Variable db : Database.
Variable self : PageForm.

Local Abbreviation slug' := (normalized slugify self).
Local Abbreviation run' := (clean_slug slugify settings db self).

(** The submitted slug matters through its normal form only. *)
Lemma same_normal_form_same_outcome (raw raw' : string) :
  slugify (Text.strip raw) = slugify (Text.strip raw') ->
  clean_slug slugify settings db (set_cleaned_slug raw self)
  = clean_slug slugify settings db (set_cleaned_slug raw' self).
Proof.
  intros H.
  unfold clean_slug, check_default_slug, check_unique, check_position,
    check_target, check_current_level, own_slug_rows, with_slug_body,
    exclude_own, slugs_of, intersects_sites, site_ids, own_row, objects_get.
  change (normalized slugify (set_cleaned_slug raw self))
    with (slugify (Text.strip raw)).
  change (normalized slugify (set_cleaned_slug raw' self))
    with (slugify (Text.strip raw')).
  rewrite H. reflexivity.
Qed.

Lemma set_cleaned_slug_same :
  clean_slug slugify settings db (set_cleaned_slug (cleaned_slug self) self)
  = run'.
Proof. reflexivity. Qed.

(** Left and right are one case: a form submitted with position "left"
    and the same form with position "right" have the same outcome. *)
Remark left_and_right_alike :
  clean_slug slugify settings db (set_position (Some "left") self)
  = clean_slug slugify settings db (set_position (Some "right") self).
Proof. reflexivity. Qed.

(** X13.  Target and position count together or not at all: when the
    target is missing, or the position is missing or empty, the outcome
    is the one of the form with neither. *)
Theorem half_placement_is_none :
  placed self = false ->
  run' = clean_slug slugify settings db
           (set_target None (set_position None self)).
Proof.
  intros Hpl. rewrite !clean_slug_steps.
  change (check_default_slug slugify settings db
            (set_target None (set_position None self)))
    with (check_default_slug slugify settings db self).
  change (check_unique slugify settings db
            (set_target None (set_position None self)))
    with (check_unique slugify settings db self).
  destruct (check_default_slug slugify settings db self) as [|[]];
    [reflexivity |].
  destruct (check_unique slugify settings db self) as [|[]]; [reflexivity |].
  destruct (GERBI_UNIQUE_SLUG_REQUIRED settings) eqn:Hu.
  - now rewrite !check_position_unique.
  - now rewrite !check_position_unplaced.
Qed.

(** X14.  Without site scoping the sites play no part: the outcome does
    not depend on the sites submitted, on the sites of the pages, on
    GERBI_HIDE_SITES or on SITE_ID. *)
Theorem unscoped_ignores_sites (hide : bool) (site_id : Z)
    (page_sites : Page -> list Z) (ids : list Z) :
  GERBI_USE_SITE_ID settings = false ->
  clean_slug slugify (set_site_options hide site_id settings)
             (set_sites page_sites db) (set_data_sites ids self)
  = run'.
Proof.
  intros Hs.
  unfold clean_slug, check_default_slug, check_unique, check_position,
    check_target, check_current_level, own_slug_rows, with_slug_body,
    exclude_own, slugs_of, intersects_sites, own_row, objects_get.
  cbn [GERBI_USE_SITE_ID GERBI_DEFAULT_LANGUAGE GERBI_UNIQUE_SLUG_REQUIRED
       set_site_options set_sites set_data_sites].
  rewrite Hs. reflexivity.
Qed.

(** X15.  With site scoping and GERBI_HIDE_SITES, pages are compared
    within the current site: the sites submitted with the form do not
    change the outcome. *)
Theorem hidden_sites_ignore_submitted (ids : list Z) :
  GERBI_USE_SITE_ID settings = true -> GERBI_HIDE_SITES settings = true ->
  clean_slug slugify settings db (set_data_sites ids self) = run'.
Proof.
  intros Hs Hh.
  unfold clean_slug, check_default_slug, check_unique, check_position,
    check_target, check_current_level, own_slug_rows, with_slug_body,
    exclude_own, slugs_of, intersects_sites, site_ids, own_row, objects_get.
  rewrite Hh. reflexivity.
Qed.

(** X16.  With site scoping on the submitted sites, a form that submits
    no site at all is compared with no sibling, child or root page: once
    the default-slug check is passed, only the target of a left or right
    placement, which is not filtered, can cause a validation error. *)
Theorem no_site_no_sibling_check :
  GERBI_UNIQUE_SLUG_REQUIRED settings = false ->
  GERBI_USE_SITE_ID settings = true -> GERBI_HIDE_SITES settings = false ->
  data_sites self = [] ->
  ~ raises run' default_slug_required ->
  (forall t pos, target self = Some t -> position self = Some pos ->
                 pos = "left" \/ pos = "right" -> slug db t <> slug') ->
  forall m, ~ raises run' m.
Proof.
  intros Hu Hs Hh He Hd Ht.
  apply filtered_candidates_never_block; try assumption.
  intros q _ Hpass. exfalso. revert Hpass.
  unfold intersects_sites, site_ids. rewrite Hs, Hh, He.
  assert (filter (fun id : Z => existsb (Z.eqb id) []) (sites db q) = [])
    as -> by (now induction (sites db q)).
  discriminate.
Qed.

(** X17.  Whitespace around the submitted slug changes nothing: a slug
    submitted with spaces, tabs or line breaks before and after it has the
    outcome of the slug submitted without. *)
Theorem surrounding_whitespace_is_ignored (before raw after : string) :
  all_chars Text.isspace before = true ->
  all_chars Text.isspace after = true ->
  clean_slug slugify settings db
             (set_cleaned_slug (before ++ raw ++ after) self)
  = clean_slug slugify settings db (set_cleaned_slug raw self).
Proof.
  intros Hb Ha. apply same_normal_form_same_outcome.
  unfold Text.strip. now rewrite strip_with_padding.
Qed.

End Invariance.

(** A page that passes the site filter for a list of sites passes it for
    every list that contains these sites. *)
Lemma intersects_sites_more settings db self (ids : list Z) (q : Page) :
  (forall id, In id ids -> In id (data_sites self)) ->
  intersects_sites settings db (set_data_sites ids self) q = true ->
  intersects_sites settings db self q = true.
Proof.
  intros Hsub. unfold intersects_sites, site_ids.
  destruct (GERBI_USE_SITE_ID settings); [| reflexivity].
  destruct (GERBI_HIDE_SITES settings); [intros H; exact H |].
  cbn [data_sites set_data_sites]. rewrite !Nat.ltb_lt. intros H.
  destruct (filter (fun id => existsb (Z.eqb id) ids) (sites db q))
    as [|id r] eqn:E; [simpl in H; lia |].
  assert (In id (filter (fun id => existsb (Z.eqb id) ids) (sites db q)))
    as Hin by (rewrite E; now left).
  apply filter_In in Hin. destruct Hin as [Hq Hid].
  apply existsb_exists in Hid. destruct Hid as [id' [Hid' Heq]].
  apply Z.eqb_eq in Heq. subst id'.
  assert (In id (filter (fun id => existsb (Z.eqb id) (data_sites self))
                        (sites db q))) as Hin'.
  { apply filter_In. split; [assumption |]. apply existsb_exists.
    exists id. split; [now apply Hsub | apply Z.eqb_refl]. }
  apply Nat.neq_0_lt_0. intros Hlen. apply length_zero_iff_nil in Hlen.
  rewrite Hlen in Hin'. destruct Hin'.
Qed.

Lemma collides_more slugify settings db self (ids : list Z)
    (pages : list Page) :
  (forall id, In id ids -> In id (data_sites self)) ->
  collides slugify settings db (set_data_sites ids self) pages ->
  collides slugify settings db self pages.
Proof.
  intros Hsub [q [Hq [Hp Hs]]]. exists q. repeat split; try assumption.
  now apply (intersects_sites_more settings db self ids).
Qed.

(** X18.  Submitting fewer sites never turns an accepted slug into a
    refused one: a slug that clean_slug returns for a form is returned
    for the same form with any part of its sites. *)
Theorem fewer_sites_never_block slugify settings db self (ids : list Z)
    (s : string) :
  (forall id, In id ids -> In id (data_sites self)) ->
  returns (clean_slug slugify settings db self) s ->
  returns (clean_slug slugify settings db (set_data_sites ids self)) s.
Proof.
  intros Hsub H. apply returns_inv in H.
  destruct H as [-> [Hd [Hun Hpos]]].
  set (self' := set_data_sites ids self).
  unfold returns. rewrite clean_slug_steps.
  change (check_default_slug slugify settings db self')
    with (check_default_slug slugify settings db self).
  change (check_unique slugify settings db self')
    with (check_unique slugify settings db self).
  rewrite Hd, Hun.
  enough (check_position slugify settings db self' = inr tt) as ->
    by reflexivity.
  destruct (GERBI_UNIQUE_SLUG_REQUIRED settings) eqn:Hu;
    [now apply check_position_unique |].
  destruct (placed self) eqn:Hpl.
  - unfold placed in Hpl.
    destruct (target self) as [t|] eqn:Ht; [| discriminate].
    destruct (position self) as [pos|] eqn:Hp; [| discriminate].
    assert (pos <> "") as Hne
      by (cbn in Hpl; now apply negb_true_iff, String.eqb_neq in Hpl).
    rewrite (check_position_placed slugify settings db self Hu Ht Hp Hne)
      in Hpos.
    rewrite (check_position_placed slugify settings db self' Hu Ht Hp Hne).
    destruct (exists_page db t) eqn:He;
      [| rewrite (check_target_missing slugify settings db self t pos He)
           in Hpos; discriminate].
    destruct (string_dec pos "left") as [Hl | Hl];
      [| destruct (string_dec pos "right") as [Hr | Hr]].
    1, 2: assert (pos = "left" \/ pos = "right") as Hlr by tauto;
      destruct (check_target_beside slugify settings db self t He Hlr)
        as [[E _] | [_ Hno]]; [congruence |];
      destruct (check_target_beside slugify settings db self' t He Hlr)
        as [[_ Hyes] | [E _]]; [| exact E];
      exfalso; apply Hno; destruct Hyes as [Hyes | Hyes];
      [ now left | right; eapply collides_more; eassumption ].
    destruct (string_dec pos "first-child") as [Hf | Hf].
    + subst pos.
      destruct (check_target_below slugify settings db self t He)
        as [[E _] | [_ Hno]]; [congruence |].
      destruct (check_target_below slugify settings db self' t He)
        as [[_ Hyes] | [E _]]; [| exact E].
      exfalso. apply Hno.
      eapply collides_more; eassumption.
    + now apply check_target_elsewhere.
  - rewrite (check_position_unplaced slugify settings db self Hu Hpl) in Hpos.
    rewrite (check_position_unplaced slugify settings db self' Hu Hpl).
    destruct (instance self) as [i|] eqn:Hi.
    + destruct (check_current_level_edited slugify settings db self Hi)
        as [[E _] | [_ Hno]]; [congruence |].
      destruct (check_current_level_edited slugify settings db self' Hi)
        as [[_ Hyes] | [E _]]; [| exact E].
      exfalso. apply Hno.
      eapply collides_more; eassumption.
    + destruct (check_current_level_new slugify settings db self Hi)
        as [[E _] | [_ Hno]]; [congruence |].
      destruct (check_current_level_new slugify settings db self' Hi)
        as [[_ Hyes] | [E _]]; [| exact E].
      exfalso. apply Hno.
      eapply collides_more; eassumption.
Qed.

(** X19.  A slug that clean_slug returns is in normal form, and is
    accepted as it is when submitted again on the same database: the
    second validation returns the same slug. *)
Theorem returned_slug_is_accepted_again settings db self (s : string) :
  returns (clean_slug django_slugify settings db self) s ->
  django_slugify (Text.strip s) = s
  /\ returns (clean_slug django_slugify settings db (set_cleaned_slug s self)) s.
Proof.
  intros H. pose proof (returned_slug_is_slugified _ _ _ _ H) as Hs.
  assert (django_slugify (Text.strip s)
          = django_slugify (Text.strip (cleaned_slug self))) as Hfix
    by (rewrite Hs at 1; rewrite django_slugify_fixed; reflexivity).
  split; [now rewrite Hfix |].
  unfold returns.
  rewrite (same_normal_form_same_outcome django_slugify settings db self
             s (cleaned_slug self) Hfix).
  rewrite set_cleaned_slug_same. exact H.
Qed.


(** *** On the example site *)

Lemma new_french_page_is_refused :
  raises (run position_mode site_tables
              (submit "fr" None "bonjour" None None))
         default_slug_required.
Proof.
  apply (@new_page_needs_default_language django_slugify position_mode
           (database_of position_mode site_tables)
           (submit "fr" None "bonjour" None None));
    by_computation.
Defined.


Lemma child_error_comes_from_first_child :
  let form := submit "en" None "news" (Some 1%positive) (Some "first-child") in
  exists t, target form = Some t /\ position form = Some "first-child".
Proof.
  apply (@position_mode_errors django_slugify position_mode
           (database_of position_mode site_tables)
           (submit "en" None "news" (Some 1%positive) (Some "first-child"))
           (ValidationError child_error));
    reflexivity.
Defined.

(** A target with an empty position: the form is checked at the root
    level, as if no target had been submitted. *)
Lemma target_with_empty_position :
  let form := submit "en" None "home" (Some 3%positive) (Some "") in
  run position_mode site_tables form
  = run position_mode site_tables (set_target None (set_position None form))
  /\ raises (run position_mode site_tables form) sibling_root_error.
Proof.
  split; [| reflexivity].
  apply (@half_placement_is_none django_slugify position_mode
           (database_of position_mode site_tables)
           (submit "en" None "home" (Some 3%positive) (Some ""))).
  reflexivity.
Defined.

Lemma unscoped_on_site :
  let form := submit "en" None "contact" None None in
  let db := database_of position_mode site_tables in
  clean_slug django_slugify (set_site_options true 7 position_mode)
             (set_sites (fun _ => []) db) (set_data_sites [5%Z] form)
  = clean_slug django_slugify position_mode db form.
Proof.
  apply (@unscoped_ignores_sites django_slugify position_mode
           (database_of position_mode site_tables)
           (submit "en" None "contact" None None) true 7%Z (fun _ => [])
           [5%Z]).
  reflexivity.
Defined.

Lemma hidden_sites_on_site :
  let settings := set_site_options true 1 site_mode in
  let form := submit "en" None "contact" None None in
  run settings site_tables (set_data_sites [2%Z] form)
  = run settings site_tables form.
Proof.
  apply (@hidden_sites_ignore_submitted django_slugify
           (set_site_options true 1 site_mode)
           (database_of (set_site_options true 1 site_mode) site_tables)
           (submit "en" None "contact" None None) [2%Z]);
    reflexivity.
Defined.

(** With no site submitted, "home" is accepted at the root level although
    the root page [home] has that slug. *)
Lemma no_site_on_site :
  let form := set_data_sites [] (submit "en" None "home" None None) in
  returns (run site_mode site_tables form) "home"
  /\ ~ raises (run site_mode site_tables form) sibling_root_error.
Proof.
  split; [reflexivity |].
  apply (@no_site_no_sibling_check django_slugify site_mode
           (database_of site_mode site_tables)
           (set_data_sites [] (submit "en" None "home" None None)));
    by_computation.
Defined.

Lemma padded_slug_on_site :
  let form := submit "en" None "" None None in
  run position_mode site_tables (set_cleaned_slug ("  " ++ "Home" ++ " ") form)
  = run position_mode site_tables (set_cleaned_slug "Home" form).
Proof.
  apply (@surrounding_whitespace_is_ignored django_slugify position_mode
           (database_of position_mode site_tables)
           (submit "en" None "" None None) "  " "Home" " ");
    reflexivity.
Defined.

(** "contact" is accepted for the sites 1 and 3, and so it is for site 1
    alone. *)
Lemma fewer_sites_on_site :
  let form := set_data_sites [1%Z; 3%Z] (submit "en" None "contact" None None) in
  returns (run site_mode site_tables form) "contact"
  /\ returns (run site_mode site_tables (set_data_sites [1%Z] form)) "contact".
Proof.
  split; [reflexivity |].
  apply (@fewer_sites_never_block django_slugify site_mode
           (database_of site_mode site_tables)
           (set_data_sites [1%Z; 3%Z] (submit "en" None "contact" None None))
           [1%Z] "contact").
  - intros id [<- | []]. now left.
  - reflexivity.
Defined.

Lemma fresh_page_accepted_again :
  let form := submit "en" None " Fresh Page " None None in
  django_slugify (Text.strip "fresh-page") = "fresh-page"
  /\ returns (run position_mode site_tables
                  (set_cleaned_slug "fresh-page" form)) "fresh-page".
Proof.
  apply (@returned_slug_is_accepted_again position_mode
           (database_of position_mode site_tables)
           (submit "en" None " Fresh Page " None None) "fresh-page").
  reflexivity.
Defined.

